(** * A shallow embedding of the [dflood] GNU Radio block (python/dflood.py)

    The block is Python 2 code.  Each message handler runs under the block's
    lock and mutates the object's three dictionaries in place; it may raise a
    Python exception part-way, in which case the mutations and emissions done
    so far persist.  We therefore model a handler as a state-and-exception
    computation over a [world] (the object's fields, the messages published on
    the output ports, and a ghost log of data forwards), reading the wall
    clock [time.time()] and [random.random()] from an environment fixed for
    the duration of one handler call.  Floats are modelled as rationals [Q];
    bytes and addresses as [Z]. *)

From Stdlib Require Import ZArith QArith.
From stdpp Require Import gmap strings list fin_maps.

Open Scope Z_scope.

(** ** Python values, PMT objects and metadata dictionaries *)

Inductive pyval :=
| PyBool (b : bool)
| PyInt (z : Z)
| PyStr (s : string)
| PyNone.

(** Python truthiness. *)
Definition truthy (v : pyval) : bool :=
  match v with
  | PyBool b => b
  | PyInt z => negb (z =? 0)
  | PyStr s => negb (bool_decide (s = ""%string))
  | PyNone => false
  end.

(** A Python dict converted from PMT: an association list with unique keys. *)
Definition pydict := list (string * pyval).

Fixpoint dict_get (d : pydict) (k : string) : option pyval :=
  match d with
  | [] => None
  | (k', v) :: d' => if bool_decide (k = k') then Some v else dict_get d' k
  end.

(** The PMT library has no empty dictionary of its own: [pmt.make_dict()]
    and [pmt.to_pmt({})] are [PMT_NIL], so [PMT_NIL] is [PmtDict []]. *)
Inductive pmt :=
| PmtPair (car cdr : pmt)
| PmtU8 (elems : list Z)
| PmtDict (d : pydict)
| PmtSym (s : string).

(** [pmt.to_python] followed by the [type(meta_dict) is dict] test. *)
Definition to_python_dict (m : pmt) : pydict :=
  match m with
  | PmtDict d => d
  | _ => []
  end.

(** [crc_ok]: the [CRC_OK] entry of the metadata, true when absent. *)
Definition crc_ok (meta_dict : pydict) : bool :=
  match dict_get meta_dict "CRC_OK" with
  | Some v => truthy v
  | None => true
  end.

Definition is_byte (z : Z) : bool := (0 <=? z) && (z <=? 255).

Inductive port := to_radio | to_app | ctrl_out.

(** ** Configuration (constructor arguments) *)

Record config := mkConfig {
  addr : Z;
  SINK_ADDR : Z;
  Tmin : Q;
  Tmax : Q;
  Ndupl : Z;
  Plt : Q;
  Slt : Q;
  R : Z;
  debug_stderr : bool
}.

Definition large_backoff : Q := 5.
Definition small_backoff : Q := 5 # 2.
Definition low_backoff : Q := 1.

Definition PKT_PROT_ID : nat := 0.
Definition PKT_SNDR : nat := 1.
Definition PKT_SRC : nat := 2.
Definition PKT_SN : nat := 3.
Definition PKT_HC : nat := 4.
Definition DATA_PKT_MIN_LENGTH : nat := 7.
Definition DATA_PROTO : Z := 0.
Definition DATA_PKT_DEST : nat := 5.
Definition DATA_PKT_TTL : nat := 6.
Definition SINK_PKT_LENGTH : nat := 5.
Definition SINK_PROTO : Z := 1.
Definition RECV_NOTI_LENGTH : nat := 4.
Definition NOTI_PROTO : Z := 2.

(** ** Table values (the three namedtuples) *)

Record SinkNeighborVal := mkSinkNeighborVal {
  last_rcvd_seq_num : Z;
  sn_min_dx_to_sink : Z;
  sn_last_time_heard : Q;
  sn_broadcast_interval : Q
}.

Record SinkVal := mkSinkVal {
  highest_rcvd_seq_num : Z;
  min_dx_to_sink : Z;
  s_last_time_heard : Q;
  s_forwarding_time : Q;
  s_scheduled : bool;
  temp_min_dx_to_sink : Z
}.

(** [data] is [None] once the entry has been forwarded or cancelled. *)
Record DataPktVal := mkDataPktVal {
  d_data : option (list Z);
  d_last_time_heard : Q;
  d_forwarding_time : Q;
  d_scheduled : bool;
  duplicates : Z
}.

Abbreviation snkey := (Z * Z)%type.
Abbreviation dkey := (Z * Z * Z)%type.

(** ** The object's mutable fields *)

Record node := mkNode {
  broadcast_interval : Q;
  sequence_number : Z;
  sink_pkt_xmit_time : option Q;
  pkt_cnt : Z;
  sinkNeighborTable : gmap snkey SinkNeighborVal;
  sinkTable : gmap Z SinkVal;
  dataPacketTable : gmap dkey DataPktVal
}.

(** [out] lists the messages published so far, oldest first; [forwarded]
    is a ghost log of the data-table keys whose pending bytes the tick
    handler published. *)
Record world := mkWorld {
  st : node;
  out : list (port * pmt);
  forwarded : list dkey
}.

Record env := mkEnv { now : Q; rnd : Q }.

Inductive exn := IndexError | KeyError | TypeError | ValueError | UnboundLocalError.

Inductive result (A : Type) := Ok (a : A) | Exc (e : exn).
Arguments Ok {A} a.
Arguments Exc {A} e.

(** ** The handler monad: environment, world state, Python exceptions *)

Definition M (A : Type) : Type := env -> world -> result A * world.

Global Instance M_ret : MRet M := fun A a e w => (Ok a, w).
Global Instance M_bind : MBind M := fun A B f m e w =>
  match m e w with
  | (Ok a, w') => f a e w'
  | (Exc x, w') => (Exc x, w')
  end.

Definition raise {A} (x : exn) : M A := fun e w => (Exc x, w).
Definition skip : M unit := mret tt.
Definition get_node : M node := fun e w => (Ok (st w), w).
Definition modify_node (f : node -> node) : M unit :=
  fun e w => (Ok tt, mkWorld (f (st w)) (out w) (forwarded w)).
Definition time_time : M Q := fun e w => (Ok (now e), w).
Definition random_random : M Q := fun e w => (Ok (rnd e), w).
Definition message_port_pub (p : port) (msg : pmt) : M unit :=
  fun e w => (Ok tt, mkWorld (st w) (out w ++ [(p, msg)]) (forwarded w)).
Definition log_forward (k : dkey) : M unit :=
  fun e w => (Ok tt, mkWorld (st w) (out w) (forwarded w ++ [k])).

(** Field setters. *)
Definition set_broadcast_interval (x : Q) (n : node) : node :=
  mkNode x (sequence_number n) (sink_pkt_xmit_time n) (pkt_cnt n)
    (sinkNeighborTable n) (sinkTable n) (dataPacketTable n).
Definition set_sequence_number (x : Z) (n : node) : node :=
  mkNode (broadcast_interval n) x (sink_pkt_xmit_time n) (pkt_cnt n)
    (sinkNeighborTable n) (sinkTable n) (dataPacketTable n).
Definition set_sink_pkt_xmit_time (x : Q) (n : node) : node :=
  mkNode (broadcast_interval n) (sequence_number n) (Some x) (pkt_cnt n)
    (sinkNeighborTable n) (sinkTable n) (dataPacketTable n).
Definition set_pkt_cnt (x : Z) (n : node) : node :=
  mkNode (broadcast_interval n) (sequence_number n) (sink_pkt_xmit_time n) x
    (sinkNeighborTable n) (sinkTable n) (dataPacketTable n).
Definition set_sinkNeighborTable (t : gmap snkey SinkNeighborVal) (n : node) : node :=
  mkNode (broadcast_interval n) (sequence_number n) (sink_pkt_xmit_time n)
    (pkt_cnt n) t (sinkTable n) (dataPacketTable n).
Definition set_sinkTable (t : gmap Z SinkVal) (n : node) : node :=
  mkNode (broadcast_interval n) (sequence_number n) (sink_pkt_xmit_time n)
    (pkt_cnt n) (sinkNeighborTable n) t (dataPacketTable n).
Definition set_dataPacketTable (t : gmap dkey DataPktVal) (n : node) : node :=
  mkNode (broadcast_interval n) (sequence_number n) (sink_pkt_xmit_time n)
    (pkt_cnt n) (sinkNeighborTable n) (sinkTable n) t.

(** [l[i]] on a Python list or tuple. *)
Definition getitem (l : list Z) (i : nat) : M Z :=
  match l !! i with
  | Some z => mret z
  | None => raise IndexError
  end.

(** [l[i] = z] on a Python list. *)
Definition setitem (l : list Z) (i : nat) (z : Z) : M (list Z) :=
  if bool_decide (i < length l)%nat then mret (<[i:=z]> l) else raise IndexError.

(** [pmt.init_u8vector(len(data), data)]: [len(None)] raises, and so does a
    value that is not an unsigned byte. *)
Definition init_u8vector (data : option (list Z)) : M pmt :=
  match data with
  | None => raise TypeError
  | Some l => if forallb is_byte l then mret (PmtU8 l) else raise TypeError
  end.

(** Dictionary subscripts [d[k]] raise [KeyError] on a missing key. *)
Definition dict_lookup {K V} `{Countable K} (m : gmap K V) (k : K) : M V :=
  match m !! k with
  | Some v => mret v
  | None => raise KeyError
  end.

(** [for k in keys: body k]: stops at the first exception. *)
Fixpoint for_each {K} (ks : list K) (body : K -> M unit) : M unit :=
  match ks with
  | [] => skip
  | k :: ks' => body k ;; for_each ks' body
  end.

Definition Qltb (a b : Q) : bool := negb (Qle_bool b a).

(** ** The block's methods *)

Section Dflood.

Variable cfg : config.

(** [print_pkt] only writes to stderr, but [len(pkt)] raises on [None]. *)
Definition print_pkt (pkt : option (list Z)) : M unit :=
  match pkt with
  | None => raise TypeError
  | Some _ => skip
  end.

(** [check_sink_neighbor_table], [check_sink_table] and
    [check_data_packet_table]: purge the entries not heard for a lifetime. *)
Definition check_sink_neighbor_table : M unit :=
  time_now ← time_time;
  n ← get_node;
  for_each (map_to_list (sinkNeighborTable n)).*1 (fun key =>
    n ← get_node;
    v ← dict_lookup (sinkNeighborTable n) key;
    if Qltb (Slt cfg) (time_now - sn_last_time_heard v)%Q
    then modify_node (fun n => set_sinkNeighborTable (delete key (sinkNeighborTable n)) n)
    else skip).

Definition check_sink_table : M unit :=
  time_now ← time_time;
  n ← get_node;
  for_each (map_to_list (sinkTable n)).*1 (fun key =>
    n ← get_node;
    v ← dict_lookup (sinkTable n) key;
    if Qltb (Slt cfg) (time_now - s_last_time_heard v)%Q
    then modify_node (fun n => set_sinkTable (delete key (sinkTable n)) n)
    else skip).

Definition check_data_packet_table : M unit :=
  time_now ← time_time;
  n ← get_node;
  for_each (map_to_list (dataPacketTable n)).*1 (fun key =>
    n ← get_node;
    v ← dict_lookup (dataPacketTable n) key;
    if Qltb (Plt cfg) (time_now - d_last_time_heard v)%Q
    then modify_node (fun n => set_dataPacketTable (delete key (dataPacketTable n)) n)
    else skip).

(** [minium_addr_in_sink_neighbor_table]: [min([])] raises [ValueError]. *)
Definition minium_addr_in_sink_neighbor_table : M Z :=
  n ← get_node;
  match (map_to_list (sinkNeighborTable n)).*1.*1 with
  | [] => raise ValueError
  | a :: l => mret (foldl Z.min a l)
  end.

(** [send_pkt_radio(payload, meta_dict, pkt_cnt)]; the payload comes from
    [pmt.u8vector_elements], a list. *)
Definition send_pkt_radio (payload : list Z) (meta_dict : pydict) (pkt_cnt : Z) : M unit :=
  n ← get_node;
  match sinkTable n !! SINK_ADDR cfg with
  | None => skip
  | Some aSinkVal =>
      let data := [DATA_PROTO; addr cfg; addr cfg; pkt_cnt; min_dx_to_sink aSinkVal;
                   SINK_ADDR cfg; min_dx_to_sink aSinkVal + R cfg] ++ payload in
      (if debug_stderr cfg then print_pkt (Some data) else skip) ;;
      pdu ← init_u8vector (Some data);
      message_port_pub to_radio (PmtPair (PmtDict []) pdu)
  end.

(** [_app_rx(msg)] (called by [app_rx] under the lock). *)
Definition _app_rx (msg : pmt) : M unit :=
  match msg with
  | PmtPair meta (PmtU8 data) =>
      let meta_dict := to_python_dict meta in
      n ← get_node;
      send_pkt_radio data meta_dict (pkt_cnt n) ;;
      modify_node (fun n => set_pkt_cnt ((pkt_cnt n + 1) mod 256) n)
  | _ => skip
  end.

Definition app_rx (msg : pmt) : M unit := _app_rx msg.

(** [send_sink_pkt(addr, seq_num, hop_count)]. *)
Definition send_sink_pkt (a seq_num hop_count : Z) : M unit :=
  let data := [SINK_PROTO; addr cfg; a; seq_num; hop_count] in
  pdu ← init_u8vector (Some data);
  message_port_pub to_radio (PmtPair (PmtDict []) pdu) ;;
  t ← time_time;
  modify_node (set_sink_pkt_xmit_time t).

(** [send_notification_radio(source, seq_num)]. *)
Definition send_notification_radio (source seq_num : Z) : M unit :=
  let data := [NOTI_PROTO; addr cfg; source; seq_num] in
  pdu ← init_u8vector (Some data);
  message_port_pub to_radio (PmtPair (PmtDict []) pdu).

(** [output_user_data((data, meta_dict))]: the payload is [data[7:]]. *)
Definition output_user_data (data : list Z) (meta_dict : pydict) : M unit :=
  pdu ← init_u8vector (Some (drop DATA_PKT_MIN_LENGTH data));
  message_port_pub to_app (PmtPair (PmtDict meta_dict) pdu).

(** [handle_sink_packet(data, meta_dict)].  The local [nbi] is only bound
    on the two [debug_stderr] branches; reading it otherwise raises
    [UnboundLocalError]. *)
Definition handle_sink_packet (data : list Z) (meta_dict : pydict) : M unit :=
  sndr ← getitem data PKT_SNDR;
  src ← getitem data PKT_SRC;
  let key := (sndr, src) in
  n ← get_node;
  nbi ← (if negb (bool_decide (is_Some (sinkNeighborTable n !! key))) && debug_stderr cfg
         then mret (Some (broadcast_interval n))
         else if debug_stderr cfg
         then (v ← dict_lookup (sinkNeighborTable n) key;
               t ← time_time;
               mret (Some ((4 # 5) * sn_broadcast_interval v
                           + (1 # 5) * (t - sn_last_time_heard v))%Q))
         else mret None);
  sn ← getitem data PKT_SN;
  hc ← getitem data PKT_HC;
  t ← time_time;
  nbi ← (match nbi with Some x => mret x | None => raise UnboundLocalError end);
  let aSinkNeighborVal := mkSinkNeighborVal sn hc t nbi in
  modify_node (fun n => set_sinkNeighborTable (<[key:=aSinkNeighborVal]> (sinkNeighborTable n)) n) ;;
  m ← minium_addr_in_sink_neighbor_table;
  (if bool_decide (m < addr cfg)
   then (n ← get_node;
         v ← dict_lookup (sinkNeighborTable n) key;
         modify_node (set_broadcast_interval (sn_broadcast_interval v)))
   else skip) ;;
  key ← getitem data PKT_SRC;
  n ← get_node;
  match sinkTable n !! key with
  | None =>
      sn ← getitem data PKT_SN;
      hc ← getitem data PKT_HC;
      t ← time_time;
      let aSinkVal := mkSinkVal sn (hc + 1) t (t + small_backoff)%Q true hc in
      modify_node (fun n => set_sinkTable (<[key:=aSinkVal]> (sinkTable n)) n)
  | Some aSinkVal =>
      sn ← getitem data PKT_SN;
      hc ← getitem data PKT_HC;
      t ← time_time;
      let '(highest_rcvd_seq_num, forwarding_time, scheduled, temp_min_dx_to_sink) :=
        if bool_decide (highest_rcvd_seq_num aSinkVal < sn) then
          (sn,
           (if bool_decide (min_dx_to_sink aSinkVal < hc)
            then (t + large_backoff)%Q else (t + small_backoff)%Q),
           true, hc)
        else if bool_decide (sn = highest_rcvd_seq_num aSinkVal) then
          (if negb (s_scheduled aSinkVal) then
             (if bool_decide (hc < min_dx_to_sink aSinkVal)
              then (highest_rcvd_seq_num aSinkVal, (t + low_backoff)%Q, true,
                    temp_min_dx_to_sink aSinkVal)
              else (highest_rcvd_seq_num aSinkVal, s_forwarding_time aSinkVal,
                    s_scheduled aSinkVal, temp_min_dx_to_sink aSinkVal))
           else if bool_decide (hc < temp_min_dx_to_sink aSinkVal)
           then (highest_rcvd_seq_num aSinkVal, s_forwarding_time aSinkVal,
                 s_scheduled aSinkVal, hc)
           else (highest_rcvd_seq_num aSinkVal, s_forwarding_time aSinkVal,
                 s_scheduled aSinkVal, temp_min_dx_to_sink aSinkVal))
        else (highest_rcvd_seq_num aSinkVal, s_forwarding_time aSinkVal,
              s_scheduled aSinkVal, temp_min_dx_to_sink aSinkVal) in
      let aSinkVal' := mkSinkVal highest_rcvd_seq_num (min_dx_to_sink aSinkVal) t
                         forwarding_time scheduled temp_min_dx_to_sink in
      modify_node (fun n => set_sinkTable (<[key:=aSinkVal']> (sinkTable n)) n)
  end.

(** [handle_data_packet(data, meta_dict)]. *)
Definition handle_data_packet (data : list Z) (meta_dict : pydict) : M unit :=
  dest ← getitem data DATA_PKT_DEST;
  if bool_decide (dest = addr cfg) then
    src ← getitem data PKT_SRC;
    sn ← getitem data PKT_SN;
    send_notification_radio src sn ;;
    output_user_data data meta_dict
  else
    n ← get_node;
    match sinkTable n !! dest with
    | None => skip
    | Some sv =>
        let my_dx_to_sink := min_dx_to_sink sv in
        ttl ← getitem data DATA_PKT_TTL;
        if bool_decide (ttl - 1 < my_dx_to_sink) then skip else
        src ← getitem data PKT_SRC;
        dest ← getitem data DATA_PKT_DEST;
        sn ← getitem data PKT_SN;
        let key := (src, dest, sn) in
        n ← get_node;
        match dataPacketTable n !! key with
        | None =>
            data ← setitem data PKT_SNDR (addr cfg);
            data ← setitem data PKT_HC my_dx_to_sink;
            ttl ← getitem data DATA_PKT_TTL;
            data ← setitem data DATA_PKT_TTL (ttl - 1);
            t ← time_time;
            r ← random_random;
            let forwarding_time := (t + Tmin cfg + r * (Tmax cfg - Tmin cfg))%Q in
            t' ← time_time;
            modify_node (fun n => set_dataPacketTable
              (<[key:=mkDataPktVal (Some data) t' forwarding_time true 0]>
                 (dataPacketTable n)) n)
        | Some _ =>
            hc ← getitem data PKT_HC;
            if bool_decide (hc <= my_dx_to_sink) then
              n ← get_node;
              aDataPktVal ← dict_lookup (dataPacketTable n) key;
              modify_node (fun n => set_dataPacketTable
                (<[key:=mkDataPktVal (d_data aDataPktVal) (d_last_time_heard aDataPktVal)
                         (d_forwarding_time aDataPktVal)
                         (bool_decide (duplicates aDataPktVal + 1 < Ndupl cfg))
                         (duplicates aDataPktVal + 1)]> (dataPacketTable n)) n)
            else skip
        end
    end.

(** [handle_receive_notification(data, meta_dict)]. *)
Definition handle_receive_notification (data : list Z) (meta_dict : pydict) : M unit :=
  src ← getitem data PKT_SRC;
  sndr ← getitem data PKT_SNDR;
  sn ← getitem data PKT_SN;
  let key := (src, sndr, sn) in
  n ← get_node;
  match dataPacketTable n !! key with
  | None => skip
  | Some v =>
      modify_node (fun n => set_dataPacketTable
        (<[key:=mkDataPktVal None (d_last_time_heard v) 0 false (duplicates v)]>
           (dataPacketTable n)) n)
  end.

(** [_radio_rx(data, meta_dict)] (called by [radio_rx] under the lock). *)
Definition _radio_rx (data : list Z) (meta_dict : pydict) : M unit :=
  if negb (crc_ok meta_dict) then skip else
  p ← getitem data PKT_PROT_ID;
  if negb (bool_decide (p ∈ [DATA_PROTO; SINK_PROTO; NOTI_PROTO])) then skip else
  if (bool_decide (p = DATA_PROTO) && bool_decide (length data < DATA_PKT_MIN_LENGTH)%nat)
     || (bool_decide (p = SINK_PROTO) && negb (bool_decide (length data = SINK_PKT_LENGTH)))
     || (bool_decide (p = NOTI_PROTO) && negb (bool_decide (length data = RECV_NOTI_LENGTH)))
  then skip else
  sndr ← getitem data PKT_SNDR;
  from_self ← ((if bool_decide (sndr = addr cfg) then mret true
                else src ← getitem data PKT_SRC; mret (bool_decide (src = addr cfg)))
               : M bool);
  if (from_self : bool) then skip else
  (if debug_stderr cfg && bool_decide (p = DATA_PROTO) then print_pkt (Some data) else skip) ;;
  if bool_decide (p = SINK_PROTO) then handle_sink_packet data meta_dict
  else if bool_decide (p = DATA_PROTO) then handle_data_packet data meta_dict
  else if bool_decide (p = NOTI_PROTO) then handle_receive_notification data meta_dict
  else skip.

(** [radio_rx(msg)]: the PDU checks, then [_radio_rx] under the lock. *)
Definition radio_rx (msg : pmt) : M unit :=
  match msg with
  | PmtPair meta (PmtU8 data) => _radio_rx data (to_python_dict meta)
  | _ => skip
  end.

(** One iteration of the sink-table loop of [ctrl_rx] on a non-sink node.
    The rebuilt [aSinkVal] is bound to the local variable only: the source
    never stores it back into [self.sinkTable]. *)
Definition sink_forward (k : Z) : M unit :=
  n ← get_node;
  aSinkVal ← dict_lookup (sinkTable n) k;
  t ← time_time;
  if s_scheduled aSinkVal && Qle_bool (s_forwarding_time aSinkVal) t then
    send_sink_pkt k (highest_rcvd_seq_num aSinkVal) (min_dx_to_sink aSinkVal) ;;
    let aSinkVal := mkSinkVal (highest_rcvd_seq_num aSinkVal)
                      (temp_min_dx_to_sink aSinkVal + 1)
                      (s_last_time_heard aSinkVal) 0 false
                      (temp_min_dx_to_sink aSinkVal) in
    skip
  else skip.

(** One iteration of the data-packet-table loop of [ctrl_rx]. *)
Definition data_forward (k : dkey) : M unit :=
  n ← get_node;
  aDataPacketVal ← dict_lookup (dataPacketTable n) k;
  t ← time_time;
  if d_scheduled aDataPacketVal
     && bool_decide (duplicates aDataPacketVal <= Ndupl cfg)
     && Qle_bool (d_forwarding_time aDataPacketVal) t
  then
    (if debug_stderr cfg then print_pkt (d_data aDataPacketVal) else skip) ;;
    pdu ← init_u8vector (d_data aDataPacketVal);
    message_port_pub to_radio (PmtPair (PmtDict []) pdu) ;;
    log_forward k ;;
    modify_node (fun n => set_dataPacketTable
      (<[k:=mkDataPktVal None (d_last_time_heard aDataPacketVal) 0 false
              (duplicates aDataPacketVal)]> (dataPacketTable n)) n)
  else skip.

(** The sink branch of [ctrl_rx]: originate a beacon. *)
Definition sink_beacon : M unit :=
  n ← get_node;
  t ← time_time;
  r ← random_random;
  if Qltb 0 (broadcast_interval n)
     && match sink_pkt_xmit_time n with
        | None => true
        | Some x => Qle_bool (broadcast_interval n * 2 * r) (t - x)
        end
  then send_sink_pkt (addr cfg) (sequence_number n) 0 ;;
       modify_node (fun n => set_sequence_number ((sequence_number n + 1) mod 256) n)
  else skip.

(** [ctrl_rx(msg)]: the tick handler. *)
Definition ctrl_rx : M unit :=
  (if bool_decide (addr cfg = SINK_ADDR cfg) then sink_beacon
   else n ← get_node; for_each (map_to_list (sinkTable n)).*1 sink_forward) ;;
  n ← get_node;
  for_each (map_to_list (dataPacketTable n)).*1 data_forward ;;
  check_sink_neighbor_table ;;
  check_sink_table ;;
  check_data_packet_table.

End Dflood.

(** ** Runs: the flow graph delivers messages one at a time *)

Inductive event :=
| FromRadio (e : env) (msg : pmt)
| FromApp (e : env) (msg : pmt)
| CtrlIn (e : env).

(** A handler that raises leaves the world as it was at the raise; the
    scheduler goes on with the next message. *)
Definition step (cfg : config) (ev : event) (w : world) : world :=
  match ev with
  | FromRadio e msg => snd (radio_rx cfg msg e w)
  | FromApp e msg => snd (app_rx cfg msg e w)
  | CtrlIn e => snd (ctrl_rx cfg e w)
  end.

Fixpoint run (cfg : config) (w : world) (evs : list event) : world :=
  match evs with
  | [] => w
  | ev :: evs' => run cfg (step cfg ev w) evs'
  end.

(** The state right after [__init__]. *)
Definition init_world (bi : Q) : world :=
  mkWorld (mkNode bi 0 None 0 ∅ ∅ ∅) [] [].

(** ** Reasoning about handlers *)

(** A relation between the world before and after a computation, closed
    under sequencing; [pres Rel m] says that [m] relates its initial and
    final worlds, whether it returns or raises. *)
Section Preservation.

Variable Rel : world -> world -> Prop.
Hypothesis Rel_refl : forall w, Rel w w.
Hypothesis Rel_trans : forall w1 w2 w3, Rel w1 w2 -> Rel w2 w3 -> Rel w1 w3.

Definition pres {A} (m : M A) : Prop := forall e w, Rel w (snd (m e w)).

Lemma pres_ret {A} (a : A) : pres (mret a).
Proof. intros e w. apply Rel_refl. Qed.

Lemma pres_raise {A} (x : exn) : pres (raise (A:=A) x).
Proof. intros e w. apply Rel_refl. Qed.

Lemma pres_bind {A B} (m : M A) (f : A -> M B) :
  pres m -> (forall a, pres (f a)) -> pres (m ≫= f).
Proof.
  intros Hm Hf e w. specialize (Hm e w). cbv [mbind M_bind].
  destruct (m e w) as [[a|x] w'] eqn:E; simpl in *; [|exact Hm].
  eapply Rel_trans; [exact Hm | apply Hf].
Qed.

Lemma pres_for_each {K} (ks : list K) (body : K -> M unit) :
  (forall k, pres (body k)) -> pres (for_each ks body).
Proof.
  intros Hb. induction ks as [|k ks IH]; simpl.
  - apply pres_ret.
  - apply pres_bind; [apply Hb | intros _; exact IH].
Qed.

Lemma pres_get_node : pres get_node.
Proof. intros e w. apply Rel_refl. Qed.

Lemma pres_time_time : pres time_time.
Proof. intros e w. apply Rel_refl. Qed.

Lemma pres_random_random : pres random_random.
Proof. intros e w. apply Rel_refl. Qed.

Lemma pres_getitem l i : pres (getitem l i).
Proof. unfold getitem. destruct (l !! i); [apply pres_ret | apply pres_raise]. Qed.

Lemma pres_setitem l i z : pres (setitem l i z).
Proof. unfold setitem. case_bool_decide; [apply pres_ret | apply pres_raise]. Qed.

Lemma pres_init_u8vector d : pres (init_u8vector d).
Proof.
  unfold init_u8vector. destruct d as [l|]; [|apply pres_raise].
  destruct (forallb is_byte l); [apply pres_ret | apply pres_raise].
Qed.

Lemma pres_dict_lookup {K V} `{Countable K} (m : gmap K V) k : pres (dict_lookup m k).
Proof. unfold dict_lookup. destruct (m !! k); [apply pres_ret | apply pres_raise]. Qed.

End Preservation.

Create HintDb pres.
#[export] Hint Resolve pres_ret pres_raise pres_get_node pres_time_time
  pres_random_random pres_getitem pres_setitem pres_init_u8vector
  pres_dict_lookup : pres.

(** Split a computation into its steps, down to the primitives. *)
Ltac pres_steps :=
  repeat first
    [ solve [eauto with pres]
    | apply pres_bind; [..|intros ?]
    | apply pres_for_each; intros ?
    | progress unfold skip
    | match goal with
      | |- pres _ (if ?b then _ else _) => destruct b eqn:?
      | |- pres _ (match ?x with _ => _ end) => destruct x eqn:?
      end ].

(** ** The status of one data-table key *)

Inductive dstatus := Absent | Fresh | Spent.

(** [Fresh]: the entry still holds bytes to forward; [Spent]: its bytes
    were cleared by a forward or a NOTI. *)
Definition dstat (k : dkey) (w : world) : dstatus :=
  match dataPacketTable (st w) !! k with
  | None => Absent
  | Some v => match d_data v with Some _ => Fresh | None => Spent end
  end.

Fixpoint count_fwd (k : dkey) (l : list dkey) : nat :=
  match l with
  | [] => 0
  | k' :: l' => (if bool_decide (k' = k) then 1 else 0) + count_fwd k l'
  end%nat.

Definition fcount (k : dkey) (w : world) : nat := count_fwd k (forwarded w).

(** What the radio and application handlers may do to key [k]. *)
Definition RelNoFwd (k : dkey) (w w' : world) : Prop :=
  fcount k w' = fcount k w /\ (dstat k w = Spent -> dstat k w' = Spent).

(** What the tick handler may do to key [k]. *)
Definition RelTick (k : dkey) (w w' : world) : Prop :=
  (dstat k w = Absent -> dstat k w' = Absent /\ fcount k w' = fcount k w) /\
  (dstat k w = Spent -> dstat k w' <> Fresh /\ fcount k w' = fcount k w) /\
  (dstat k w = Fresh ->
     fcount k w' = fcount k w \/ (fcount k w' = S (fcount k w) /\ dstat k w' <> Fresh)).

Ltac unfold_M := cbv [mbind M_bind getitem setitem get_node mret M_ret raise skip
  modify_node time_time random_random message_port_pub log_forward dict_lookup
  init_u8vector print_pkt] in *.

(** Symbolic execution: split on every test the handler makes. *)
Ltac exec_M := unfold_M; repeat (case_match; simplify_eq/=).

Lemma RelNoFwd_refl k w : RelNoFwd k w w.
Proof. split; auto. Qed.

Lemma RelNoFwd_trans k w1 w2 w3 :
  RelNoFwd k w1 w2 -> RelNoFwd k w2 w3 -> RelNoFwd k w1 w3.
Proof. intros [H1 H2] [H3 H4]. split; [congruence | auto]. Qed.

Lemma RelTick_refl k w : RelTick k w w.
Proof. unfold RelTick. repeat split; auto; congruence. Qed.

Lemma RelTick_trans k w1 w2 w3 :
  RelTick k w1 w2 -> RelTick k w2 w3 -> RelTick k w1 w3.
Proof.
  unfold RelTick. intros (A1 & S1 & F1) (A2 & S2 & F2).
  destruct (dstat k w1) eqn:E1, (dstat k w2) eqn:E2, (dstat k w3) eqn:E3;
    repeat split; try congruence;
    repeat match goal with
           | H : ?x = ?x -> _ |- _ => specialize (H eq_refl)
           | H : ?a <> ?a -> _ |- _ => clear H
           | H : _ /\ _ |- _ => destruct H
           end;
    try congruence; try lia;
    repeat match goal with H : _ \/ _ |- _ => destruct H end;
    intuition (try congruence; try lia).
Qed.

#[export] Hint Resolve RelNoFwd_refl RelNoFwd_trans RelTick_refl RelTick_trans : pres.

Lemma count_fwd_app k l1 l2 : count_fwd k (l1 ++ l2) = (count_fwd k l1 + count_fwd k l2)%nat.
Proof. induction l1 as [|x l1 IH]; simpl; [done | rewrite IH; lia]. Qed.

(** Rewrite the lookups of an updated table, then compare the statuses. *)
Ltac close_dstat :=
  unfold RelNoFwd, RelTick, dstat, fcount in *; simpl in *;
  repeat match goal with
  | |- context [<[?i:=_]> _ !! ?j] => rewrite (lookup_insert _ i j); case_decide; subst
  | |- context [delete ?i _ !! ?j] => rewrite (lookup_delete _ i j); case_decide; subst
  end; simpl in *;
  repeat case_match; simplify_eq/=;
  rewrite ?count_fwd_app; simpl;
  repeat case_bool_decide; simplify_eq/=;
  intuition (try congruence; try lia).


(** *** The radio and application handlers never forward, and never refill
    a spent entry. *)

Lemma handle_receive_notification_nofwd k data md :
  pres (RelNoFwd k) (handle_receive_notification data md).
Proof. intros e w. unfold handle_receive_notification. exec_M; close_dstat. Qed.

Lemma handle_data_packet_nofwd cfg k data md :
  pres (RelNoFwd k) (handle_data_packet cfg data md).
Proof.
  intros e w. unfold handle_data_packet, send_notification_radio, output_user_data.
  exec_M; close_dstat.
Qed.

Lemma handle_sink_packet_nofwd cfg k data md :
  pres (RelNoFwd k) (handle_sink_packet cfg data md).
Proof.
  intros e w. unfold handle_sink_packet, minium_addr_in_sink_neighbor_table.
  exec_M; close_dstat.
Qed.

#[export] Hint Resolve handle_receive_notification_nofwd handle_data_packet_nofwd
  handle_sink_packet_nofwd : pres.



(** *** The tick handler forwards a key at most once, and only a fresh one. *)

Lemma data_forward_tick cfg k k' : pres (RelTick k) (data_forward cfg k').
Proof. intros e w. unfold data_forward. exec_M; close_dstat. Qed.

Lemma sink_forward_tick cfg k k' : pres (RelTick k) (sink_forward cfg k').
Proof. intros e w. unfold sink_forward, send_sink_pkt. exec_M; close_dstat. Qed.

Lemma sink_beacon_tick cfg k : pres (RelTick k) (sink_beacon cfg).
Proof. intros e w. unfold sink_beacon, send_sink_pkt. exec_M; close_dstat. Qed.

#[export] Hint Resolve data_forward_tick sink_forward_tick sink_beacon_tick : pres.

Lemma check_sink_neighbor_table_tick cfg k : pres (RelTick k) (check_sink_neighbor_table cfg).
Proof.
  unfold check_sink_neighbor_table. pres_steps.
  intros e w. exec_M; close_dstat.
Qed.

Lemma check_sink_table_tick cfg k : pres (RelTick k) (check_sink_table cfg).
Proof.
  unfold check_sink_table. pres_steps.
  intros e w. exec_M; close_dstat.
Qed.

Lemma check_data_packet_table_tick cfg k : pres (RelTick k) (check_data_packet_table cfg).
Proof.
  unfold check_data_packet_table. pres_steps.
  intros e w. exec_M; close_dstat.
Qed.

#[export] Hint Resolve check_sink_neighbor_table_tick check_sink_table_tick
  check_data_packet_table_tick : pres.


(** *** Runs in which a data-table key is never purged *)




(** *** The duplicate-suppression invariant of the data table *)

Definition InvD (cfg : config) (w : world) : Prop :=
  forall k v, dataPacketTable (st w) !! k = Some v ->
    d_scheduled v = true -> duplicates v < Ndupl cfg.

Definition RelInv (cfg : config) (w w' : world) : Prop := InvD cfg w -> InvD cfg w'.

Lemma RelInv_refl cfg w : RelInv cfg w w.
Proof. unfold RelInv. tauto. Qed.

Lemma RelInv_trans cfg w1 w2 w3 : RelInv cfg w1 w2 -> RelInv cfg w2 w3 -> RelInv cfg w1 w3.
Proof. unfold RelInv. tauto. Qed.

#[export] Hint Resolve RelInv_refl RelInv_trans : pres.

Ltac close_inv :=
  let Hinv := fresh "Hinv" in
  let Hl := fresh "Hl" in
  let Hs := fresh "Hs" in
  unfold RelInv; intros Hinv; unfold InvD in *; intros ?k ?v Hl Hs; simpl in *;
  repeat first [ rewrite lookup_insert in Hl | rewrite lookup_delete in Hl ];
  repeat (case_decide; simplify_eq/=);
  repeat case_bool_decide; simplify_eq/=; eauto; try lia.

Section InvDPres.

Variable cfg : config.
Hypothesis Ndupl_pos : 1 <= Ndupl cfg.

Lemma handle_data_packet_inv data md : pres (RelInv cfg) (handle_data_packet cfg data md).
Proof.
  intros e w. unfold handle_data_packet, send_notification_radio, output_user_data.
  exec_M; close_inv.
Qed.

End InvDPres.

Lemma handle_receive_notification_inv cfg data md :
  pres (RelInv cfg) (handle_receive_notification data md).
Proof. intros e w. unfold handle_receive_notification. exec_M; close_inv. Qed.

Lemma handle_sink_packet_inv cfg data md : pres (RelInv cfg) (handle_sink_packet cfg data md).
Proof.
  intros e w. unfold handle_sink_packet, minium_addr_in_sink_neighbor_table.
  exec_M; close_inv.
Qed.

Lemma data_forward_inv cfg k : pres (RelInv cfg) (data_forward cfg k).
Proof. intros e w. unfold data_forward. exec_M; close_inv. Qed.

Lemma sink_forward_inv cfg k : pres (RelInv cfg) (sink_forward cfg k).
Proof. intros e w. unfold sink_forward, send_sink_pkt. exec_M; close_inv. Qed.

Lemma sink_beacon_inv cfg : pres (RelInv cfg) (sink_beacon cfg).
Proof. intros e w. unfold sink_beacon, send_sink_pkt. exec_M; close_inv. Qed.

#[export] Hint Resolve handle_data_packet_inv handle_receive_notification_inv
  handle_sink_packet_inv data_forward_inv sink_forward_inv sink_beacon_inv : pres.

Lemma check_sink_neighbor_table_inv cfg : pres (RelInv cfg) (check_sink_neighbor_table cfg).
Proof. unfold check_sink_neighbor_table. pres_steps. intros e w. exec_M; close_inv. Qed.

Lemma check_sink_table_inv cfg : pres (RelInv cfg) (check_sink_table cfg).
Proof. unfold check_sink_table. pres_steps. intros e w. exec_M; close_inv. Qed.

Lemma check_data_packet_table_inv cfg : pres (RelInv cfg) (check_data_packet_table cfg).
Proof. unfold check_data_packet_table. pres_steps. intros e w. exec_M; close_inv. Qed.

#[export] Hint Resolve check_sink_neighbor_table_inv check_sink_table_inv
  check_data_packet_table_inv : pres.

Lemma ctrl_rx_inv cfg : pres (RelInv cfg) (ctrl_rx cfg).
Proof. unfold ctrl_rx. pres_steps. Qed.

Lemma radio_rx_inv cfg msg : 1 <= Ndupl cfg -> pres (RelInv cfg) (radio_rx cfg msg).
Proof.
  intros HN. unfold radio_rx, _radio_rx.
  destruct msg as [meta [| data | |] | | |]; pres_steps.
Qed.

Lemma app_rx_inv cfg msg : pres (RelInv cfg) (app_rx cfg msg).
Proof. intros e w. unfold app_rx, _app_rx, send_pkt_radio. exec_M; close_inv. Qed.

Lemma run_InvD cfg w evs : 1 <= Ndupl cfg -> InvD cfg w -> InvD cfg (run cfg w evs).
Proof.
  intros HN. revert w. induction evs as [|ev evs IH]; intros w Hinv; simpl; [done|].
  apply IH. destruct ev as [e msg|e msg|e]; simpl.
  - apply (radio_rx_inv cfg msg HN e w Hinv).
  - apply (app_rx_inv cfg msg e w Hinv).
  - apply (ctrl_rx_inv cfg e w Hinv).
Qed.

(** ** Concrete nodes and messages *)

(** Node B of the spec's scenarios: address 1, sink 0, default timers. *)
Definition cfg_B (dbg : bool) : config := mkConfig 1 0 5 65 2 120 50 2 dbg.

Definition env_at (t : Q) : env := mkEnv t (1 # 2).

Definition pdu (bytes : list Z) : pmt := PmtPair (PmtDict []) (PmtU8 bytes).

Definition sink_msg (seq : Z) : pmt := pdu [SINK_PROTO; 0; 0; seq; 0].

Definition data_msg : pmt := pdu [DATA_PROTO; 2; 2; 7; 0; 0; 5; 170].

(** A node that heard one beacon of sink 0 and, five seconds later, the
    DATA packet [(src 2, dest 0, seq 7)] of the spec's scenario 2. *)
Definition w_data : world :=
  run (cfg_B true) (init_world 30)
    [FromRadio (env_at 0) (sink_msg 0); FromRadio (env_at 5) data_msg].

(** The data-table key of that packet. *)
Definition key_207 : dkey := (2, 0, 7).

(** The NOTI for that packet, sent by the sink 0. *)
Definition noti_msg : pmt := pdu [NOTI_PROTO; 0; 2; 7].

(** After an insertion the key list of the sink-neighbor table is not empty. *)
Lemma sink_neighbor_keys_insert_nonempty (m : gmap snkey SinkNeighborVal) k v :
  (map_to_list (<[k:=v]> m)).*1.*1 <> [].
Proof.
  intros Hl. apply fmap_nil_inv, fmap_nil_inv in Hl.
  apply map_to_list_empty_iff in Hl. by apply insert_non_empty in Hl.
Qed.

(** ** The NOTI handler, end to end *)

Lemma radio_rx_noti cfg meta sndr src sn e w v :
  crc_ok (to_python_dict meta) = true -> sndr <> addr cfg -> src <> addr cfg ->
  dataPacketTable (st w) !! (src, sndr, sn) = Some v ->
  radio_rx cfg (PmtPair meta (PmtU8 [NOTI_PROTO; sndr; src; sn])) e w =
  (Ok tt, mkWorld (set_dataPacketTable
     (<[(src, sndr, sn) := mkDataPktVal None (d_last_time_heard v) 0 false (duplicates v)]>
        (dataPacketTable (st w))) (st w)) (out w) (forwarded w)).
Proof.
  intros Hcrc Hs Hr Hv.
  unfold radio_rx, _radio_rx, handle_receive_notification. rewrite Hcrc. unfold_M. simpl.
  repeat (case_bool_decide; try congruence; simpl in * ); try (exfalso; set_solver).
  rewrite andb_false_r. simpl. rewrite Hv. reflexivity.
Qed.

(** * The claims *)

(** ** C1 *)

(** C1 (sink-table forward).  On node B, after the beacon [1,0,0,0,0] of
    sink 0, the tick at t = 3 publishes the rebroadcast [1,1,0,0,1], but the
    entry of sink 0 is left exactly as it was: still scheduled, with its
    forwarding time 5/2.  The next tick, at t = 4, publishes the same beacon
    again. *)
Theorem C1_sink_entry_not_rewritten :
  let w1 := step (cfg_B true) (FromRadio (env_at 0) (sink_msg 0)) (init_world 30) in
  let w2 := step (cfg_B true) (CtrlIn (env_at 3)) w1 in
  let w3 := step (cfg_B true) (CtrlIn (env_at 4)) w2 in
  sinkTable (st w1) !! 0 = Some (mkSinkVal 0 1 0 (5 # 2) true 0) /\
  sinkTable (st w2) !! 0 = sinkTable (st w1) !! 0 /\
  out w2 = [(to_radio, pdu [SINK_PROTO; 1; 0; 0; 1])] /\
  out w3 = [(to_radio, pdu [SINK_PROTO; 1; 0; 0; 1]); (to_radio, pdu [SINK_PROTO; 1; 0; 0; 1])].
Proof. vm_compute. repeat split. Qed.

(** ** C4 *)

(** C4 (malformed radio ingress).  A well-formed PDU whose byte vector is
    empty makes [_radio_rx] read [data[0]]: the handler raises [IndexError]
    to its caller. *)
Theorem C4_empty_vector_raises cfg e w :
  radio_rx cfg (pdu []) e w = (Exc IndexError, w).
Proof. reflexivity. Qed.

(** ** C7 *)

(** C7 (NOTI cancellation).  A valid NOTI [(NOTI, sender, src, seq)] whose
    key [(src, sender, seq)] is in the data table rewrites that entry to
    (no bytes, its last_heard, forwarding time 0, unscheduled, its
    duplicates); every other entry, table, field and output is unchanged,
    and the handler returns normally. *)
Theorem C7_noti_cancels_entry cfg meta sndr src sn e w v :
  crc_ok (to_python_dict meta) = true -> sndr <> addr cfg -> src <> addr cfg ->
  dataPacketTable (st w) !! (src, sndr, sn) = Some v ->
  radio_rx cfg (PmtPair meta (PmtU8 [NOTI_PROTO; sndr; src; sn])) e w =
  (Ok tt, mkWorld (set_dataPacketTable
     (<[(src, sndr, sn) := mkDataPktVal None (d_last_time_heard v) 0 false (duplicates v)]>
        (dataPacketTable (st w))) (st w)) (out w) (forwarded w)).
Proof. apply radio_rx_noti. Qed.

Lemma C7_witness :
  exists v, dataPacketTable (st w_data) !! (2, 0, 7) = Some v /\
  radio_rx (cfg_B true) noti_msg (env_at 6) w_data =
  (Ok tt, mkWorld (set_dataPacketTable
     (<[(2, 0, 7) := mkDataPktVal None (d_last_time_heard v) 0 false (duplicates v)]>
        (dataPacketTable (st w_data))) (st w_data)) (out w_data) (forwarded w_data)).
Proof.
  eexists. split; [vm_compute; reflexivity|].
  apply (C7_noti_cancels_entry (cfg_B true) (PmtDict []) 0 2 7); [reflexivity | discriminate | discriminate |].
  vm_compute. reflexivity.
Defined.

(** ** C9 *)

(** C9 (NOTI replay).  Once a valid NOTI has cancelled the entry of its key,
    delivering the same NOTI again, any number of times and at any time,
    leaves the whole world unchanged. *)
Theorem C9_noti_replay_idempotent cfg meta sndr src sn e e' w v n :
  crc_ok (to_python_dict meta) = true -> sndr <> addr cfg -> src <> addr cfg ->
  dataPacketTable (st w) !! (src, sndr, sn) = Some v ->
  let msg := PmtPair meta (PmtU8 [NOTI_PROTO; sndr; src; sn]) in
  let w1 := snd (radio_rx cfg msg e w) in
  run cfg w1 (replicate n (FromRadio e' msg)) = w1.
Proof.
  intros Hcrc Hs Hr Hv msg w1.
  assert (Hw1 : w1 = mkWorld (set_dataPacketTable
     (<[(src, sndr, sn) := mkDataPktVal None (d_last_time_heard v) 0 false (duplicates v)]>
        (dataPacketTable (st w))) (st w)) (out w) (forwarded w)).
  { unfold w1, msg. rewrite (radio_rx_noti cfg meta sndr src sn e w v); done. }
  assert (Hfix : snd (radio_rx cfg msg e' w1) = w1).
  { unfold msg. rewrite (radio_rx_noti cfg meta sndr src sn e' w1
                   (mkDataPktVal None (d_last_time_heard v) 0 false (duplicates v)));
      [| done | done | done | rewrite Hw1; simpl; apply lookup_insert_eq].
    rewrite Hw1. simpl. rewrite insert_insert_eq. reflexivity. }
  clearbody w1. induction n as [|n IH]; [reflexivity|].
  cbn [run replicate step]. rewrite Hfix. exact IH.
Qed.

Lemma C9_witness :
  run (cfg_B true) (snd (radio_rx (cfg_B true) noti_msg (env_at 6) w_data))
      (replicate 3 (FromRadio (env_at 7) noti_msg))
  = snd (radio_rx (cfg_B true) noti_msg (env_at 6) w_data).
Proof.
  eapply (C9_noti_replay_idempotent (cfg_B true) (PmtDict []) 0 2 7);
    [reflexivity | discriminate | discriminate | vm_compute; reflexivity].
Defined.

(** ** C3 *)

(** Node B forwards packet key_207 at t = 100; the tick at t = 130 purges
    the entry (125 s > Plt); a new beacon and a new copy of the packet
    re-create it, and the tick at t = 170 forwards it again. *)
Definition c3_trace : list event :=
  [FromRadio (env_at 0) (sink_msg 0); FromRadio (env_at 5) data_msg;
   CtrlIn (env_at 100); CtrlIn (env_at 130); FromRadio (env_at 131) (sink_msg 1);
   FromRadio (env_at 132) data_msg; CtrlIn (env_at 170)].







(** ** C5 *)

(** C5 (amended).  With no sink-table entry for the configured sink, an
    application message publishes nothing and changes no table; the only
    change is [pkt_cnt], incremented mod 256 whenever the message is a PDU
    with a byte vector. *)
Theorem C5_app_drop_without_gradient cfg msg e w :
  sinkTable (st w) !! SINK_ADDR cfg = None ->
  app_rx cfg msg e w =
  (Ok tt, mkWorld (match msg with
                   | PmtPair _ (PmtU8 _) => set_pkt_cnt ((pkt_cnt (st w) + 1) mod 256) (st w)
                   | _ => st w
                   end) (out w) (forwarded w)).
Proof.
  intros Hno. destruct w as [n o f].
  unfold app_rx, _app_rx, send_pkt_radio.
  destruct msg as [meta [| data | |] | | |]; unfold_M; simpl in *; try reflexivity.
  rewrite Hno. reflexivity.
Qed.

Lemma C5_witness :
  app_rx (cfg_B false) (pdu [170]) (env_at 0) (init_world 30) =
  (Ok tt, mkWorld (set_pkt_cnt 1 (st (init_world 30))) [] []).
Proof. apply (C5_app_drop_without_gradient (cfg_B false)). vm_compute. reflexivity. Defined.

(** C5 as stated fails: the dropped payload still advances [pkt_cnt]. *)
Lemma C5_drop_advances_pkt_cnt :
  out (snd (app_rx (cfg_B false) (pdu [170]) (env_at 0) (init_world 30))) = [] /\
  pkt_cnt (st (init_world 30)) = 0 /\
  pkt_cnt (st (snd (app_rx (cfg_B false) (pdu [170]) (env_at 0) (init_world 30)))) = 1.
Proof. vm_compute. repeat split. Qed.

(** ** C6 *)

(** Node B with [Ndupl = 0], as node 1 of examples/top_block.py. *)
Definition cfg_N0 : config := mkConfig 1 0 5 65 0 120 50 2 true.

(** C6 (amended: needs [Ndupl >= 1]).  From the state after [__init__],
    after any sequence of messages, every data-table entry that is
    scheduled has [duplicates < Ndupl]. *)
Theorem C6_scheduled_below_Ndupl cfg bi evs :
  1 <= Ndupl cfg -> InvD cfg (run cfg (init_world bi) evs).
Proof.
  intros HN. apply run_InvD; [done|].
  intros k v Hl. simpl in Hl. rewrite lookup_empty in Hl. discriminate.
Qed.

Lemma C6_witness : InvD (cfg_B true) (run (cfg_B true) (init_world 30) c3_trace).
Proof. apply C6_scheduled_below_Ndupl. vm_compute. discriminate. Defined.

(** C6 as stated fails for [Ndupl = 0]: the first copy of a packet creates
    a scheduled entry with [duplicates = 0]. *)
Lemma C6_Ndupl0_violates :
  ~ InvD cfg_N0 (run cfg_N0 (init_world 30)
                  [FromRadio (env_at 0) (sink_msg 0); FromRadio (env_at 5) data_msg]).
Proof.
  intros H.
  assert (Hl : dataPacketTable (st (run cfg_N0 (init_world 30)
                  [FromRadio (env_at 0) (sink_msg 0); FromRadio (env_at 5) data_msg]))
               !! key_207
               = Some (mkDataPktVal (Some [0; 1; 2; 7; 1; 0; 4; 170]) 5 (80 # 2) true 0))
    by (vm_compute; reflexivity).
  specialize (H _ _ Hl eq_refl). simpl in H. lia.
Qed.

(** ** C8 *)

(** Node C of the spec's scenario 4: address 5, its own sink. *)
Definition cfg_C : config := mkConfig 5 5 5 65 2 120 50 2 true.

(** C8 (amended: the metadata delivered is the metadata dictionary).  A
    valid DATA packet whose DestSink is the node's own address makes the
    node publish the NOTI [NOTI, self, src, seq] on [to_radio], then the
    bytes past the first seven on [to_app] with the metadata converted by
    [pmt.to_python] (an empty dictionary when the incoming metadata is not
    a dictionary); nothing else changes. *)
Theorem C8_final_hop_delivery cfg meta sndr src sn hc ttl payload e w :
  crc_ok (to_python_dict meta) = true -> sndr <> addr cfg -> src <> addr cfg ->
  forallb is_byte ([DATA_PROTO; sndr; src; sn; hc; addr cfg; ttl] ++ payload) = true ->
  radio_rx cfg (PmtPair meta (PmtU8 ([DATA_PROTO; sndr; src; sn; hc; addr cfg; ttl] ++ payload))) e w =
  (Ok tt, mkWorld (st w)
            (out w ++ [(to_radio, pdu [NOTI_PROTO; addr cfg; src; sn]);
                       (to_app, PmtPair (PmtDict (to_python_dict meta)) (PmtU8 payload))])
            (forwarded w)).
Proof.
  intros Hcrc Hs Hr Hb.
  simpl in Hb. rewrite !andb_true_iff in Hb.
  destruct Hb as (Hsndr & Hsrc & Hsn & _ & Haddr & _ & Hpay).
  unfold radio_rx, _radio_rx, handle_data_packet, send_notification_radio, output_user_data.
  rewrite Hcrc. unfold_M. simpl.
  repeat (case_bool_decide; try congruence; try lia; simpl in * ); try (exfalso; set_solver).
  destruct (debug_stderr cfg); simpl;
    rewrite Haddr, Hsrc, Hsn; simpl; rewrite drop_0, Hpay; simpl;
    rewrite <- app_assoc; reflexivity.
Qed.

Lemma C8_witness :
  radio_rx cfg_C (pdu [DATA_PROTO; 9; 9; 3; 1; 5; 3; 222; 173]) (env_at 0) (init_world 30) =
  (Ok tt, mkWorld (st (init_world 30))
            [(to_radio, pdu [NOTI_PROTO; 5; 9; 3]); (to_app, pdu [222; 173])] []).
Proof.
  apply (C8_final_hop_delivery cfg_C (PmtDict []) 9 9 3 1 3 [222; 173]);
    [reflexivity | discriminate | discriminate | reflexivity].
Defined.

(** C8 as stated fails: PDU metadata that is not a dictionary, here the
    symbol ['x'], reaches [to_app] as the empty dictionary [PMT_NIL], not as
    the original metadata. *)
Lemma C8_symbol_metadata_not_kept :
  out (snd (radio_rx cfg_C (PmtPair (PmtSym "x") (PmtU8 [DATA_PROTO; 9; 9; 3; 1; 5; 3; 222; 173]))
                     (env_at 0) (init_world 30))) =
  [(to_radio, pdu [NOTI_PROTO; 5; 9; 3]); (to_app, PmtPair (PmtDict []) (PmtU8 [222; 173]))] /\
  PmtDict [] <> PmtSym "x".
Proof. split; [vm_compute; reflexivity | discriminate]. Qed.

(** ** C2 *)

Lemma sink_neighbor_update_debug_on cfg meta sndr src sn hc e w v :
  debug_stderr cfg = true -> crc_ok (to_python_dict meta) = true ->
  sndr <> addr cfg -> src <> addr cfg ->
  sinkNeighborTable (st w) !! (sndr, src) = Some v ->
  let r := radio_rx cfg (PmtPair meta (PmtU8 [SINK_PROTO; sndr; src; sn; hc])) e w in
  fst r = Ok tt /\
  sinkNeighborTable (st (snd r)) !! (sndr, src) =
  Some (mkSinkNeighborVal sn hc (now e)
          ((4 # 5) * sn_broadcast_interval v + (1 # 5) * (now e - sn_last_time_heard v))%Q).
Proof.
  intros Hdbg Hcrc Hs Hr Hv r. subst r.
  unfold radio_rx, _radio_rx, handle_sink_packet, minium_addr_in_sink_neighbor_table.
  rewrite Hcrc, Hdbg. unfold_M. simpl.
  repeat (case_bool_decide; try congruence; simpl in * ); try (exfalso; set_solver).
  rewrite Hv. simpl. repeat (case_match; simplify_eq/=).
  all: try (exfalso; eapply sink_neighbor_keys_insert_nonempty; eassumption).
  all: rewrite ?lookup_insert_eq in *; simplify_eq/=; auto.
Qed.

(** With [debug_stderr] on, the same receipt with its key already present
    stores [(seq, hc, now, 0.8 * old_interval + 0.2 * (now - last_heard))]
    and returns normally. *)
Lemma handle_sink_packet_debug_update cfg meta sndr src sn hc e w v :
  debug_stderr cfg = true -> crc_ok (to_python_dict meta) = true ->
  sndr <> addr cfg -> src <> addr cfg ->
  sinkNeighborTable (st w) !! (sndr, src) = Some v ->
  let r := radio_rx cfg (PmtPair meta (PmtU8 [SINK_PROTO; sndr; src; sn; hc])) e w in
  fst r = Ok tt /\
  sinkNeighborTable (st (snd r)) !! (sndr, src) =
  Some (mkSinkNeighborVal sn hc (now e)
          ((4 # 5) * sn_broadcast_interval v + (1 # 5) * (now e - sn_last_time_heard v))%Q).
Proof. apply sink_neighbor_update_debug_on. Qed.

(** ** C10 *)

(** C10 (minimum over the sink-neighbor table).  [handle_sink_packet] calls
    [minium_addr_in_sink_neighbor_table] only after storing the entry of the
    packet just received, so it never raises the [ValueError] of [min([])]. *)
Theorem C10_min_never_empty cfg data md e w :
  fst (handle_sink_packet cfg data md e w) <> Exc ValueError.
Proof.
  unfold handle_sink_packet, minium_addr_in_sink_neighbor_table. exec_M.
  all: try discriminate.
  all: match goal with H : (map_to_list _).*1.*1 = [] |- _ =>
         exfalso; revert H; apply sink_neighbor_keys_insert_nonempty end.
Qed.

(** * Further properties of the block *)

(** ** Aging: the three check_* scans are filters *)

Section Purge.
Context {K V : Type} `{Countable K}.
Variable get : node -> gmap K V.
Variable set : gmap K V -> node -> node.
Variable lth : V -> Q.
Variable lifetime : Q.
Hypothesis get_set : forall t n, get (set t n) = t.
Hypothesis set_set : forall t t' n, set t (set t' n) = set t n.
Hypothesis set_get : forall n, set (get n) n = n.

Definition purge_body (time_now : Q) (key : K) : M unit :=
  n ← get_node;
  v ← dict_lookup (get n) key;
  if Qltb lifetime (time_now - lth v)%Q
  then modify_node (fun n => set (delete key (get n)) n)
  else skip.

Definition purge : M unit :=
  time_now ← time_time;
  n ← get_node;
  for_each (map_to_list (get n)).*1 (purge_body time_now).

Definition fresh_entry (time_now : Q) (kv : K * V) : bool :=
  Qle_bool (time_now - lth kv.2) lifetime.

Lemma purge_body_step tn k v e w :
  get (st w) !! k = Some v ->
  purge_body tn k e w =
  (Ok tt, if fresh_entry tn (k, v) then w
          else mkWorld (set (delete k (get (st w))) (st w)) (out w) (forwarded w)).
Proof.
  intros Hv. unfold purge_body, fresh_entry, Qltb. unfold_M. simpl. rewrite Hv.
  by destruct (Qle_bool _ _).
Qed.

Lemma for_each_purge tn ks e w :
  NoDup ks -> (forall k, k ∈ ks -> is_Some (get (st w) !! k)) ->
  for_each ks (purge_body tn) e w =
  (Ok tt, mkWorld (set (filter (fun kv => kv.1 ∉ ks \/ fresh_entry tn kv = true) (get (st w))) (st w))
                  (out w) (forwarded w)).
Proof.
  revert w. induction ks as [|k ks IH]; intros w Hnd Hin.
  - simpl. rewrite map_filter_id by (intros; left; set_solver). rewrite set_get.
    destruct w; reflexivity.
  - apply NoDup_cons in Hnd as [Hk Hnd].
    destruct (Hin k ltac:(set_solver)) as [v Hv].
    cbn [for_each]. cbv [mbind M_bind]. rewrite (purge_body_step tn k v e w Hv).
    destruct (fresh_entry tn (k, v)) eqn:Hf.
    + rewrite IH by (auto; intros k' Hk'; apply Hin; set_solver).
      do 3 f_equal. apply map_filter_ext. intros i x Hx. simpl.
      destruct (decide (i = k)); [subst; rewrite Hv in Hx; simplify_eq; rewrite Hf; intuition|].
      set_solver.
    + rewrite IH by (auto; intros k' Hk'; simpl; rewrite get_set, lookup_delete_ne by set_solver;
                     apply Hin; set_solver).
      simpl. rewrite get_set, set_set. do 3 f_equal.
      apply map_eq. intros i. rewrite !map_lookup_filter.
      destruct (decide (i = k)); [subst|].
      * rewrite lookup_delete_eq, Hv. simpl. rewrite option_guard_False; [done|].
        rewrite Hf. set_solver.
      * rewrite lookup_delete_ne by done. destruct (get (st w) !! i); simpl; [|done].
        repeat case_guard; try done; set_solver.
Qed.

Lemma purge_filter e w :
  purge e w =
  (Ok tt, mkWorld (set (filter (fun kv => fresh_entry (now e) kv = true) (get (st w))) (st w)) (out w) (forwarded w)).
Proof.
  unfold purge. cbv [mbind M_bind time_time get_node]. rewrite for_each_purge.
  - do 3 f_equal. apply map_filter_ext. intros i x Hx. simpl.
    assert (i ∈ (map_to_list (get (st w))).*1).
    { apply list_elem_of_fmap. exists (i, x). split; [done|]. by apply elem_of_map_to_list. }
    intuition.
  - apply NoDup_fst_map_to_list.
  - intros k Hk. apply list_elem_of_fmap in Hk as [[k' x] [-> Hkx]].
    apply elem_of_map_to_list in Hkx. eexists; eauto.
Qed.
End Purge.

(** [check_data_packet_table] always returns normally and leaves exactly the
    data-table entries heard at most [Plt] seconds ago; nothing else of the
    node, the output or the forwarding log changes. *)
Lemma check_data_packet_table_filter cfg e w :
  check_data_packet_table cfg e w =
  (Ok tt, mkWorld (set_dataPacketTable
     (filter (fun kv : dkey * DataPktVal => Qle_bool (now e - d_last_time_heard kv.2) (Plt cfg) = true)
        (dataPacketTable (st w))) (st w)) (out w) (forwarded w)).
Proof.
  apply (purge_filter dataPacketTable set_dataPacketTable d_last_time_heard (Plt cfg));
    intros; try destruct n; reflexivity.
Qed.

(** [check_sink_table] always returns normally and leaves exactly the
    sink-table entries heard at most [Slt] seconds ago; nothing else changes. *)
Lemma check_sink_table_filter cfg e w :
  check_sink_table cfg e w =
  (Ok tt, mkWorld (set_sinkTable
     (filter (fun kv : Z * SinkVal => Qle_bool (now e - s_last_time_heard kv.2) (Slt cfg) = true)
        (sinkTable (st w))) (st w)) (out w) (forwarded w)).
Proof.
  apply (purge_filter sinkTable set_sinkTable s_last_time_heard (Slt cfg));
    intros; try destruct n; reflexivity.
Qed.

(** [check_sink_neighbor_table] always returns normally and leaves exactly
    the sink-neighbor entries heard at most [Slt] seconds ago; nothing else
    changes. *)
Lemma check_sink_neighbor_table_filter cfg e w :
  check_sink_neighbor_table cfg e w =
  (Ok tt, mkWorld (set_sinkNeighborTable
     (filter (fun kv : snkey * SinkNeighborVal =>
                Qle_bool (now e - sn_last_time_heard kv.2) (Slt cfg) = true)
        (sinkNeighborTable (st w))) (st w)) (out w) (forwarded w)).
Proof.
  apply (purge_filter sinkNeighborTable set_sinkNeighborTable sn_last_time_heard (Slt cfg));
    intros; try destruct n; reflexivity.
Qed.

(** ** The minimum sender address *)

Lemma foldl_min_spec (a : Z) (l : list Z) :
  foldl Z.min a l ∈ a :: l /\ Forall (fun x => foldl Z.min a l <= x) (a :: l).
Proof.
  revert a. induction l as [|b l IH]; intros a; simpl.
  - split; [set_solver|]. constructor; [lia|constructor].
  - destruct (IH (Z.min a b)) as [Hin Hall].
    inversion Hall as [|? ? Hab Hl]; subst. split.
    + apply elem_of_cons in Hin as [->|Hin]; [|set_solver].
      destruct (Z.min_spec a b) as [[_ ->]|[_ ->]]; set_solver.
    + constructor; [lia|]. constructor; [lia|done].
Qed.

Lemma sink_neighbor_senders (t : gmap snkey SinkNeighborVal) a :
  a ∈ (map_to_list t).*1.*1 <-> exists src v, t !! (a, src) = Some v.
Proof.
  rewrite list_elem_of_fmap. split.
  - intros [[a' src] [-> Hk]]. apply list_elem_of_fmap in Hk as [[[a'' src'] v] [Heq Hkv]].
    simpl in Heq. simplify_eq. apply elem_of_map_to_list in Hkv. eauto.
  - intros (src & v & Hv). exists (a, src). split; [done|].
    apply list_elem_of_fmap. exists ((a, src), v). split; [done|]. by apply elem_of_map_to_list.
Qed.

(** [minium_addr_in_sink_neighbor_table] raises [ValueError] exactly on an
    empty sink-neighbor table; otherwise it returns the least sender address
    among the table's keys, and it never changes the world. *)
Theorem minium_addr_spec e w :
  (sinkNeighborTable (st w) = ∅ /\ minium_addr_in_sink_neighbor_table e w = (Exc ValueError, w)) \/
  exists m, minium_addr_in_sink_neighbor_table e w = (Ok m, w) /\
    (exists src v, sinkNeighborTable (st w) !! (m, src) = Some v) /\
    (forall a src v, sinkNeighborTable (st w) !! (a, src) = Some v -> m <= a).
Proof.
  unfold minium_addr_in_sink_neighbor_table. unfold_M. simpl.
  destruct ((map_to_list (sinkNeighborTable (st w))).*1.*1) as [|a l] eqn:Hl.
  - left. split; [|done].
    apply fmap_nil_inv, fmap_nil_inv in Hl. by apply map_to_list_empty_iff in Hl.
  - right. exists (foldl Z.min a l). split; [done|].
    destruct (foldl_min_spec a l) as [Hin Hall]. split.
    + apply sink_neighbor_senders. by rewrite Hl.
    + intros a' src v Hv.
      assert (Ha' : a' ∈ a :: l) by (rewrite <- Hl; apply sink_neighbor_senders; eauto).
      rewrite Forall_forall in Hall. by apply Hall.
Qed.

(** ** Validation in _radio_rx *)

(** [radio_rx] drops a PDU without any effect when the CRC flag is false,
    whatever its data (the CRC test comes before [data[0]]); a non-empty PDU
    is also dropped when the protocol byte is unknown, the length does not
    fit the protocol, or the sender or source byte is the node's own
    address. *)
Theorem radio_rx_rejects cfg meta data e w :
  crc_ok (to_python_dict meta) = false \/
  (exists p rest, data = p :: rest /\
    (p ∉ [DATA_PROTO; SINK_PROTO; NOTI_PROTO] \/
     (p = DATA_PROTO /\ (length data < DATA_PKT_MIN_LENGTH)%nat) \/
     (p = SINK_PROTO /\ length data <> SINK_PKT_LENGTH) \/
     (p = NOTI_PROTO /\ length data <> RECV_NOTI_LENGTH) \/
     data !! PKT_SNDR = Some (addr cfg) \/ data !! PKT_SRC = Some (addr cfg))) ->
  radio_rx cfg (PmtPair meta (PmtU8 data)) e w = (Ok tt, w).
Proof.
  intros [Hc|(p & rest & -> & H)].
  { unfold radio_rx, _radio_rx. by rewrite Hc. }
  unfold radio_rx, _radio_rx.
  destruct (crc_ok (to_python_dict meta)) eqn:Hcrc; [|reflexivity]. simpl.
  unfold_M. simpl.
  destruct H as [H|[H|[H|[H|[H|H]]]]].
  - rewrite bool_decide_false by done. reflexivity.
  - destruct H as [-> H]. rewrite bool_decide_true by set_solver. simpl.
    rewrite bool_decide_true by (simpl in *; lia). reflexivity.
  - destruct H as [-> H]. rewrite bool_decide_true by set_solver. simpl.
    rewrite bool_decide_false by (simpl in *; lia). reflexivity.
  - destruct H as [-> H]. rewrite bool_decide_true by set_solver. simpl.
    rewrite bool_decide_false by (simpl in *; lia). reflexivity.
  - destruct (bool_decide (p ∈ _)); simpl; [|reflexivity].
    destruct (_ || _); simpl; [reflexivity|].
    destruct rest as [|s rest]; [discriminate|]. simpl in H. simplify_eq.
    unfold getitem; simpl. rewrite bool_decide_true by done. reflexivity.
  - destruct (bool_decide (p ∈ _)); simpl; [|reflexivity].
    destruct (_ || _); simpl; [reflexivity|].
    destruct rest as [|s [|r rest]]; try discriminate. simpl in H. simplify_eq.
    unfold getitem; simpl. case_bool_decide; simpl; [reflexivity|].
    rewrite bool_decide_true by done. reflexivity.
Qed.

Lemma radio_rx_rejects_witness :
  radio_rx (cfg_B true) (PmtPair (PmtDict [("CRC_OK", PyBool false)]) (PmtU8 [])) (env_at 6) w_data =
  (Ok tt, w_data) /\
  radio_rx (cfg_B true) (pdu [DATA_PROTO; 1; 2; 7; 0; 0; 5; 170]) (env_at 6) w_data =
  (Ok tt, w_data).
Proof.
  split.
  - apply (radio_rx_rejects (cfg_B true) (PmtDict [("CRC_OK", PyBool false)]) []).
    left. reflexivity.
  - apply (radio_rx_rejects (cfg_B true) (PmtDict []) [DATA_PROTO; 1; 2; 7; 0; 0; 5; 170]).
    right. exists DATA_PROTO, [1; 2; 7; 0; 0; 5; 170]. split; [reflexivity|].
    do 4 right. left. reflexivity.
Defined.

(** ** What a radio message may publish *)

Lemma handle_sink_packet_out cfg data md e w :
  out (snd (handle_sink_packet cfg data md e w)) = out w.
Proof. unfold handle_sink_packet, minium_addr_in_sink_neighbor_table. exec_M; reflexivity. Qed.

Lemma handle_receive_notification_out data md e w :
  out (snd (handle_receive_notification data md e w)) = out w.
Proof. unfold handle_receive_notification. exec_M; reflexivity. Qed.

Lemma handle_data_packet_out cfg data md e w :
  out (snd (handle_data_packet cfg data md e w)) = out w \/ data !! DATA_PKT_DEST = Some (addr cfg).
Proof.
  unfold handle_data_packet, send_notification_radio, output_user_data.
  unfold_M. destruct (data !! DATA_PKT_DEST) eqn:Hd; simpl; [|left; reflexivity].
  case_bool_decide; [subst; right; done|left].
  repeat (case_match; simplify_eq/=); reflexivity.
Qed.

(** A radio message publishes something only if it is a DATA PDU whose
    destination byte is the node's own address; every other message leaves
    the output unchanged. *)
Theorem radio_rx_publishes_only_own_data cfg msg e w :
  out (snd (radio_rx cfg msg e w)) = out w \/
  exists meta data, msg = PmtPair meta (PmtU8 data) /\
    data !! PKT_PROT_ID = Some DATA_PROTO /\ data !! DATA_PKT_DEST = Some (addr cfg).
Proof.
  destruct msg as [meta [| data | |] | | |]; try (left; reflexivity).
  cut (out (snd (_radio_rx cfg data (to_python_dict meta) e w)) = out w \/
       data !! PKT_PROT_ID = Some DATA_PROTO /\ data !! DATA_PKT_DEST = Some (addr cfg)).
  { intros [H|H]; [left; exact H|right; eauto]. }
  unfold _radio_rx. destruct (negb _); [left; reflexivity|].
  cbv [mbind M_bind mret M_ret skip raise getitem print_pkt].
  destruct (data !! PKT_PROT_ID) as [p|] eqn:Hp; [|left; reflexivity].
  simpl.
  destruct (bool_decide (p ∈ _)); simpl; [|left; reflexivity].
  destruct (_ || _); simpl; [left; reflexivity|].
  destruct (data !! PKT_SNDR) as [s|]; simpl; [|left; reflexivity].
  case_bool_decide; simpl; [left; reflexivity|].
  destruct (data !! PKT_SRC) as [r|]; simpl; [|left; reflexivity].
  case_bool_decide; simpl; [left; reflexivity|].
  destruct (debug_stderr cfg && _); simpl;
  (case_bool_decide; [subst; left; apply handle_sink_packet_out|]);
  (case_bool_decide;
     [subst; destruct (handle_data_packet_out cfg data (to_python_dict meta) e w) as [Ho|Ho];
      [left; exact Ho|right; split; done]|]);
  (case_bool_decide; [left; apply handle_receive_notification_out|left; reflexivity]).
Qed.

(** ** DATA packets relayed towards a sink *)

Abbreviation data_pkt sndr src sn hc dest ttl payload :=
  ([DATA_PROTO; sndr; src; sn; hc; dest; ttl] ++ payload).

Lemma radio_rx_data_dispatch cfg meta sndr src sn hc dest ttl payload e w :
  crc_ok (to_python_dict meta) = true -> sndr <> addr cfg -> src <> addr cfg ->
  radio_rx cfg (PmtPair meta (PmtU8 (data_pkt sndr src sn hc dest ttl payload))) e w =
  handle_data_packet cfg (data_pkt sndr src sn hc dest ttl payload) (to_python_dict meta) e w.
Proof.
  intros Hcrc Hs Hr. unfold radio_rx, _radio_rx. rewrite Hcrc. simpl negb. cbv iota.
  unfold_M. simpl.
  rewrite !bool_decide_false by done. simpl.
  destruct (debug_stderr cfg); reflexivity.
Qed.

(** A DATA packet for a known sink, whose TTL allows one more hop, that is
    not yet in the data table is stored there with sender := own address,
    hop count := own distance to the sink, TTL decremented, a forwarding
    time drawn in [Tmin, Tmax], scheduled, with no duplicates; nothing is sent. *)
Theorem radio_rx_data_new cfg meta sndr src sn hc dest ttl payload sv e w :
  crc_ok (to_python_dict meta) = true -> sndr <> addr cfg -> src <> addr cfg ->
  dest <> addr cfg -> sinkTable (st w) !! dest = Some sv ->
  min_dx_to_sink sv <= ttl - 1 -> dataPacketTable (st w) !! (src, dest, sn) = None ->
  radio_rx cfg (PmtPair meta (PmtU8 (data_pkt sndr src sn hc dest ttl payload))) e w =
  (Ok tt, mkWorld (set_dataPacketTable
     (<[(src, dest, sn) := mkDataPktVal
          (Some (data_pkt (addr cfg) src sn (min_dx_to_sink sv) dest (ttl - 1) payload))
          (now e) (now e + Tmin cfg + rnd e * (Tmax cfg - Tmin cfg))%Q true 0]>
        (dataPacketTable (st w))) (st w)) (out w) (forwarded w)).
Proof.
  intros Hcrc Hs Hr Hd Hsv Httl Hk.
  rewrite radio_rx_data_dispatch by done.
  unfold handle_data_packet. unfold_M. simpl.
  rewrite bool_decide_false by done. rewrite Hsv. simpl.
  rewrite bool_decide_false by lia. simpl. rewrite Hk. simpl.
  reflexivity.
Qed.

Definition w_sink : world :=
  step (cfg_B true) (FromRadio (env_at 0) (sink_msg 0)) (init_world 30).

Definition sv_0 : SinkVal := mkSinkVal 0 1 0 (0 + small_backoff)%Q true 0.

Lemma radio_rx_data_new_witness :
  exists sv, sinkTable (st w_sink) !! 0 = Some sv /\
  radio_rx (cfg_B true) data_msg (env_at 5) w_sink =
  (Ok tt, mkWorld (set_dataPacketTable
     (<[(2, 0, 7) := mkDataPktVal
          (Some ([DATA_PROTO; 1; 2; 7; min_dx_to_sink sv; 0; 4] ++ [170]))
          5 (5 + 5 + (1 # 2) * (65 - 5))%Q true 0]>
        (dataPacketTable (st w_sink))) (st w_sink)) (out w_sink) (forwarded w_sink)).
Proof.
  eexists. split; [vm_compute; reflexivity|].
  apply (radio_rx_data_new (cfg_B true) (PmtDict []) 2 2 7 0 0 5 [170]);
    [reflexivity | discriminate | discriminate | discriminate | vm_compute; reflexivity
    | vm_compute; discriminate | vm_compute; reflexivity].
Defined.

(** A DATA packet for a known sink whose decremented TTL is below the
    node's distance to the sink is dropped without any effect. *)
Theorem radio_rx_data_ttl_drop cfg meta sndr src sn hc dest ttl payload sv e w :
  crc_ok (to_python_dict meta) = true -> sndr <> addr cfg -> src <> addr cfg ->
  dest <> addr cfg -> sinkTable (st w) !! dest = Some sv ->
  ttl - 1 < min_dx_to_sink sv ->
  radio_rx cfg (PmtPair meta (PmtU8 (data_pkt sndr src sn hc dest ttl payload))) e w = (Ok tt, w).
Proof.
  intros Hcrc Hs Hr Hd Hsv Httl.
  rewrite radio_rx_data_dispatch by done.
  unfold handle_data_packet. unfold_M. simpl.
  rewrite bool_decide_false by done. rewrite Hsv. simpl.
  rewrite bool_decide_true by lia. reflexivity.
Qed.

Lemma radio_rx_data_ttl_drop_witness :
  sinkTable (st w_sink) !! 0 = Some sv_0 /\ 1 - 1 < min_dx_to_sink sv_0 /\
  radio_rx (cfg_B true) (pdu [DATA_PROTO; 2; 2; 7; 0; 0; 1; 170]) (env_at 5) w_sink =
  (Ok tt, w_sink).
Proof.
  split; [vm_compute; reflexivity|]. split; [vm_compute; reflexivity|].
  apply (radio_rx_data_ttl_drop (cfg_B true) (PmtDict []) 2 2 7 0 0 1 [170] sv_0);
    [reflexivity | discriminate | discriminate | discriminate | vm_compute; reflexivity
    | vm_compute; reflexivity].
Defined.

(** A DATA packet for a known sink that passes the TTL test and is already
    in the data table counts as a duplicate when its hop count is at most
    the node's distance to the sink: the duplicate
    count grows by one and the entry stays scheduled only while that count
    is below [Ndupl]; otherwise the packet has no effect. *)
Theorem radio_rx_data_duplicate cfg meta sndr src sn hc dest ttl payload sv v e w :
  crc_ok (to_python_dict meta) = true -> sndr <> addr cfg -> src <> addr cfg ->
  dest <> addr cfg -> sinkTable (st w) !! dest = Some sv ->
  min_dx_to_sink sv <= ttl - 1 -> dataPacketTable (st w) !! (src, dest, sn) = Some v ->
  radio_rx cfg (PmtPair meta (PmtU8 (data_pkt sndr src sn hc dest ttl payload))) e w =
  (Ok tt, if bool_decide (hc <= min_dx_to_sink sv) then
     mkWorld (set_dataPacketTable
       (<[(src, dest, sn) := mkDataPktVal (d_data v) (d_last_time_heard v) (d_forwarding_time v)
            (bool_decide (duplicates v + 1 < Ndupl cfg)) (duplicates v + 1)]>
          (dataPacketTable (st w))) (st w)) (out w) (forwarded w)
   else w).
Proof.
  intros Hcrc Hs Hr Hd Hsv Httl Hk.
  rewrite radio_rx_data_dispatch by done.
  unfold handle_data_packet. unfold_M. simpl.
  rewrite bool_decide_false by done. rewrite Hsv. simpl.
  rewrite bool_decide_false by lia. simpl. rewrite Hk. simpl.
  case_bool_decide; simpl; [rewrite Hk|]; reflexivity.
Qed.

Lemma radio_rx_data_duplicate_witness :
  exists sv v, sinkTable (st w_data) !! 0 = Some sv /\ dataPacketTable (st w_data) !! key_207 = Some v /\
  radio_rx (cfg_B true) data_msg (env_at 6) w_data =
  (Ok tt, if bool_decide (0 <= min_dx_to_sink sv) then
     mkWorld (set_dataPacketTable
       (<[(2, 0, 7) := mkDataPktVal (d_data v) (d_last_time_heard v) (d_forwarding_time v)
            (bool_decide (duplicates v + 1 < 2)) (duplicates v + 1)]>
          (dataPacketTable (st w_data))) (st w_data)) (out w_data) (forwarded w_data)
   else w_data).
Proof.
  do 2 eexists. split; [vm_compute; reflexivity|]. split; [vm_compute; reflexivity|].
  apply (radio_rx_data_duplicate (cfg_B true) (PmtDict []) 2 2 7 0 0 5 [170]);
    [reflexivity | discriminate | discriminate | discriminate | vm_compute; reflexivity
    | vm_compute; discriminate | vm_compute; reflexivity].
Defined.

(** ** The first SINK packet of a sink *)

(** With [debug_stderr] on, the first SINK packet of an unknown sink from an
    unknown neighbor adds the neighbor entry (with the node's broadcast
    interval) and a scheduled sink entry with distance [hc + 1]; nothing is
    sent. *)
Theorem radio_rx_new_sink cfg meta sndr src sn hc e w :
  debug_stderr cfg = true -> crc_ok (to_python_dict meta) = true ->
  sndr <> addr cfg -> src <> addr cfg ->
  sinkNeighborTable (st w) !! (sndr, src) = None -> sinkTable (st w) !! src = None ->
  radio_rx cfg (PmtPair meta (PmtU8 [SINK_PROTO; sndr; src; sn; hc])) e w =
  (Ok tt, mkWorld
     (set_sinkTable (<[src := mkSinkVal sn (hc + 1) (now e) (now e + small_backoff)%Q true hc]>
                       (sinkTable (st w)))
       (set_sinkNeighborTable
          (<[(sndr, src) := mkSinkNeighborVal sn hc (now e) (broadcast_interval (st w))]>
             (sinkNeighborTable (st w))) (st w)))
     (out w) (forwarded w)).
Proof.
  intros Hdbg Hcrc Hs Hr Hn Hsk.
  unfold radio_rx, _radio_rx, handle_sink_packet, minium_addr_in_sink_neighbor_table.
  rewrite Hcrc, Hdbg. unfold_M. simpl.
  repeat (case_bool_decide; try congruence; simpl in * ); try (exfalso; set_solver).
  all: rewrite ?Hn; simpl.
  all: repeat (case_match; simplify_eq/=).
  all: try (exfalso; eapply sink_neighbor_keys_insert_nonempty; eassumption).
  all: rewrite ?lookup_insert_eq in *; simplify_eq/=; rewrite ?Hsk; simpl.
  all: try (destruct (st w); reflexivity).
  all: match goal with H : is_Some _ |- _ => rewrite Hn in H; by destruct H end.
Qed.

Lemma radio_rx_new_sink_witness :
  radio_rx (cfg_B true) (sink_msg 0) (env_at 0) (init_world 30) =
  (Ok tt, mkWorld
     (set_sinkTable (<[0 := mkSinkVal 0 1 0 (0 + small_backoff)%Q true 0]> ∅)
       (set_sinkNeighborTable (<[(0, 0) := mkSinkNeighborVal 0 0 0 30]> ∅)
          (st (init_world 30)))) [] []).
Proof.
  apply (radio_rx_new_sink (cfg_B true) (PmtDict []) 0 0 0 0);
    [reflexivity | reflexivity | discriminate | discriminate | reflexivity | reflexivity].
Defined.

Lemma handle_sink_packet_debug_update_witness :
  exists v, sinkNeighborTable (st w_sink) !! (0, 0) = Some v /\
  fst (radio_rx (cfg_B true) (sink_msg 1) (env_at 10) w_sink) = Ok tt /\
  sinkNeighborTable (st (snd (radio_rx (cfg_B true) (sink_msg 1) (env_at 10) w_sink))) !! (0, 0) =
  Some (mkSinkNeighborVal 1 0 10
          ((4 # 5) * sn_broadcast_interval v + (1 # 5) * (10 - sn_last_time_heard v))%Q).
Proof.
  eexists. split; [vm_compute; reflexivity|].
  apply (handle_sink_packet_debug_update (cfg_B true) (PmtDict []) 0 0 1 0 (env_at 10) w_sink);
    [reflexivity | reflexivity | discriminate | discriminate | vm_compute; reflexivity].
Defined.

(** ** Sink-table entries across handler calls *)

Definition RelSinkGrow (w w' : world) : Prop :=
  forall k v, sinkTable (st w) !! k = Some v ->
  exists v', sinkTable (st w') !! k = Some v' /\
    min_dx_to_sink v' = min_dx_to_sink v /\ highest_rcvd_seq_num v <= highest_rcvd_seq_num v'.

Definition RelSinkShrink (w w' : world) : Prop :=
  forall k v', sinkTable (st w') !! k = Some v' -> sinkTable (st w) !! k = Some v'.

Lemma RelSinkGrow_refl w : RelSinkGrow w w.
Proof. intros k v Hv. exists v. repeat split; auto; lia. Qed.
Lemma RelSinkGrow_trans w1 w2 w3 : RelSinkGrow w1 w2 -> RelSinkGrow w2 w3 -> RelSinkGrow w1 w3.
Proof.
  intros H12 H23 k v Hv. destruct (H12 k v Hv) as (v2 & H2 & Hm2 & Hh2).
  destruct (H23 k v2 H2) as (v3 & H3 & Hm3 & Hh3). exists v3. repeat split; auto; lia.
Qed.
Lemma RelSinkShrink_refl w : RelSinkShrink w w.
Proof. intros k v Hv. done. Qed.
Lemma RelSinkShrink_trans w1 w2 w3 : RelSinkShrink w1 w2 -> RelSinkShrink w2 w3 -> RelSinkShrink w1 w3.
Proof. intros H12 H23 k v Hv. auto. Qed.
#[export] Hint Resolve RelSinkGrow_refl RelSinkGrow_trans RelSinkShrink_refl RelSinkShrink_trans : pres.

Ltac close_grow :=
  let k := fresh "k" in let v := fresh "v" in let Hv := fresh "Hv" in
  intros k v Hv;
  first [ exists v; split; [exact Hv | split; auto; lia] | idtac ];
  cbn [st sinkTable set_sinkTable set_dataPacketTable set_sinkNeighborTable
       set_broadcast_interval set_pkt_cnt set_sequence_number set_sink_pkt_xmit_time] in *;
  repeat match goal with
  | |- context [<[?i:=_]> _ !! ?j] => rewrite (lookup_insert _ i j)
  | |- context [decide (?a = ?b)] => destruct (decide (a = b)); subst
  end; simplify_eq/=;
  repeat match goal with
  | H : bool_decide _ = true |- _ => apply bool_decide_eq_true_1 in H
  | H : bool_decide _ = false |- _ => apply bool_decide_eq_false_1 in H
  end;
  first [ exists v; split; [exact Hv | split; auto; lia]
        | eexists; (split; [reflexivity|]); simpl; split; auto; lia
        ].

Lemma radio_rx_sink_grow cfg msg : pres RelSinkGrow (radio_rx cfg msg).
Proof.
  intros e w. unfold radio_rx, _radio_rx, handle_sink_packet, minium_addr_in_sink_neighbor_table,
    handle_data_packet, send_notification_radio, output_user_data, handle_receive_notification.
  exec_M; close_grow.
Qed.

Ltac close_shrink :=
  let k := fresh "k" in let v := fresh "v" in let Hv := fresh "Hv" in
  intros k v Hv;
  cbn [st sinkTable set_sinkTable set_dataPacketTable set_sinkNeighborTable
       set_broadcast_interval set_pkt_cnt set_sequence_number set_sink_pkt_xmit_time] in *;
  simplify_eq/=;
  repeat match goal with H : delete _ _ !! _ = Some _ |- _ => apply lookup_delete_Some in H as [? H] end;
  auto.

Lemma data_forward_shrink cfg k : pres RelSinkShrink (data_forward cfg k).
Proof. intros e w. unfold data_forward. exec_M; close_shrink. Qed.
Lemma sink_forward_shrink cfg k : pres RelSinkShrink (sink_forward cfg k).
Proof. intros e w. unfold sink_forward, send_sink_pkt. exec_M; close_shrink. Qed.
Lemma sink_beacon_shrink cfg : pres RelSinkShrink (sink_beacon cfg).
Proof. intros e w. unfold sink_beacon, send_sink_pkt. exec_M; close_shrink. Qed.
#[export] Hint Resolve data_forward_shrink sink_forward_shrink sink_beacon_shrink : pres.

Lemma ctrl_rx_sink_shrink cfg : pres RelSinkShrink (ctrl_rx cfg).
Proof.
  unfold ctrl_rx, check_sink_neighbor_table, check_sink_table, check_data_packet_table.
  pres_steps; intros e w; exec_M; close_shrink.
Qed.

Lemma app_rx_sink_same cfg msg e w : sinkTable (st (snd (app_rx cfg msg e w))) = sinkTable (st w).
Proof. unfold app_rx, _app_rx, send_pkt_radio. exec_M; reflexivity. Qed.

(** Across any one event, a sink-table entry that survives keeps its
    distance to the sink and never sees its highest sequence number
    decrease. *)
Theorem step_sink_entry_monotone cfg ev w k v v' :
  sinkTable (st w) !! k = Some v -> sinkTable (st (step cfg ev w)) !! k = Some v' ->
  min_dx_to_sink v' = min_dx_to_sink v /\ highest_rcvd_seq_num v <= highest_rcvd_seq_num v'.
Proof.
  intros Hv Hv'. destruct ev as [e msg|e msg|e]; simpl in Hv'.
  - destruct (radio_rx_sink_grow cfg msg e w k v Hv) as (v2 & H2 & Hm & Hh).
    rewrite H2 in Hv'. simplify_eq. auto.
  - rewrite app_rx_sink_same in Hv'. rewrite Hv in Hv'. simplify_eq. split; [done|lia].
  - apply (ctrl_rx_sink_shrink cfg e w) in Hv'. rewrite Hv in Hv'. simplify_eq. split; [done|lia].
Qed.

Lemma step_sink_entry_monotone_witness :
  exists v v', sinkTable (st w_sink) !! 0 = Some v /\
  sinkTable (st (step (cfg_B true) (FromRadio (env_at 10) (sink_msg 1)) w_sink)) !! 0 = Some v' /\
  min_dx_to_sink v' = min_dx_to_sink v /\ highest_rcvd_seq_num v <= highest_rcvd_seq_num v'.
Proof.
  do 2 eexists. split; [vm_compute; reflexivity|]. split; [vm_compute; reflexivity|].
  apply (step_sink_entry_monotone (cfg_B true) (FromRadio (env_at 10) (sink_msg 1)) w_sink 0);
    vm_compute; reflexivity.
Defined.

(** ** The sink node originates beacons *)

Lemma bind_ok {A B} (m : M A) (f : A -> M B) a e w w' :
  m e w = (Ok a, w') -> (m ≫= f) e w = f a e w'.
Proof. intros H. cbv [mbind M_bind]. by rewrite H. Qed.

Definition RelTail (w w' : world) : Prop :=
  (exists l, out w' = out w ++ l) /\ sequence_number (st w') = sequence_number (st w) /\
  sink_pkt_xmit_time (st w') = sink_pkt_xmit_time (st w).

Lemma RelTail_refl w : RelTail w w.
Proof. split; [exists []; by rewrite app_nil_r|done]. Qed.
Lemma RelTail_trans w1 w2 w3 : RelTail w1 w2 -> RelTail w2 w3 -> RelTail w1 w3.
Proof.
  intros ([l1 H1] & S1 & X1) ([l2 H2] & S2 & X2).
  split; [exists (l1 ++ l2); by rewrite H2, H1, app_assoc|split; congruence].
Qed.
#[export] Hint Resolve RelTail_refl RelTail_trans : pres.

Ltac close_tail :=
  first [ apply RelTail_refl
        | split; [ first [ exists []; simpl; by rewrite app_nil_r | eexists; simpl; reflexivity ]
                 | simpl; split; reflexivity ] ].

Lemma data_forward_tail cfg k : pres RelTail (data_forward cfg k).
Proof. intros e w. unfold data_forward. exec_M; close_tail. Qed.
#[export] Hint Resolve data_forward_tail : pres.

Lemma sink_beacon_sends cfg e w :
  Qltb 0 (broadcast_interval (st w)) = true ->
  match sink_pkt_xmit_time (st w) with
  | None => true
  | Some x => Qle_bool (broadcast_interval (st w) * 2 * rnd e) (now e - x)
  end = true ->
  is_byte (addr cfg) = true -> is_byte (sequence_number (st w)) = true ->
  sink_beacon cfg e w =
  (Ok tt, mkWorld (set_sequence_number ((sequence_number (st w) + 1) mod 256)
                     (set_sink_pkt_xmit_time (now e) (st w)))
                  (out w ++ [(to_radio, pdu [SINK_PROTO; addr cfg; addr cfg; sequence_number (st w); 0])])
                  (forwarded w)).
Proof.
  intros Hbi Hx Ha Hs. unfold sink_beacon, send_sink_pkt. unfold_M. simpl.
  rewrite Hbi, Hx. simpl. rewrite Ha, Hs. reflexivity.
Qed.

(** On the sink node, a tick whose beacon timer has expired first sends a
    SINK beacon with the current sequence number, increments that number
    modulo 256 and records the transmission time. *)
Theorem ctrl_rx_sink_beacon cfg e w :
  addr cfg = SINK_ADDR cfg ->
  Qltb 0 (broadcast_interval (st w)) = true ->
  match sink_pkt_xmit_time (st w) with
  | None => true
  | Some x => Qle_bool (broadcast_interval (st w) * 2 * rnd e) (now e - x)
  end = true ->
  is_byte (addr cfg) = true -> is_byte (sequence_number (st w)) = true ->
  let w' := snd (ctrl_rx cfg e w) in
  (exists l, out w' = out w ++ (to_radio, pdu [SINK_PROTO; addr cfg; addr cfg; sequence_number (st w); 0]) :: l) /\
  sequence_number (st w') = (sequence_number (st w) + 1) mod 256 /\
  sink_pkt_xmit_time (st w') = Some (now e).
Proof.
  intros Hsink Hbi Hx Ha Hs w'. subst w'. unfold ctrl_rx.
  rewrite bool_decide_true by done.
  rewrite (bind_ok _ _ _ _ _ _ (sink_beacon_sends cfg e w Hbi Hx Ha Hs)).
  match goal with |- context [snd (?m e ?w1)] =>
    assert (Ht : pres RelTail m) by
      (unfold check_sink_neighbor_table, check_sink_table, check_data_packet_table;
       pres_steps; intros ? ?; exec_M; close_tail);
    destruct (Ht e w1) as ([l Hl] & HS & HX)
  end.
  rewrite Hl, HS, HX. simpl. split; [|done].
  exists l. by rewrite <- app_assoc.
Qed.

Definition cfg_S : config := mkConfig 0 0 5 65 2 120 50 2 true.

Lemma ctrl_rx_sink_beacon_witness :
  let w' := snd (ctrl_rx cfg_S (env_at 0) (init_world 30)) in
  (exists l, out w' = [] ++ (to_radio, pdu [SINK_PROTO; 0; 0; 0; 0]) :: l) /\
  sequence_number (st w') = (0 + 1) mod 256 /\ sink_pkt_xmit_time (st w') = Some 0%Q.
Proof.
  apply (ctrl_rx_sink_beacon cfg_S (env_at 0) (init_world 30)); reflexivity.
Defined.

(** ** Application packets, end to end *)

Definition data_header (cfg : config) (cnt : Z) (sv : SinkVal) : list Z :=
  [DATA_PROTO; addr cfg; addr cfg; cnt; min_dx_to_sink sv; SINK_ADDR cfg;
   min_dx_to_sink sv + R cfg].

Lemma app_rx_send cfg meta payload sv e w :
  sinkTable (st w) !! SINK_ADDR cfg = Some sv ->
  forallb is_byte (data_header cfg (pkt_cnt (st w)) sv ++ payload) = true ->
  app_rx cfg (PmtPair meta (PmtU8 payload)) e w =
  (Ok tt, mkWorld (set_pkt_cnt ((pkt_cnt (st w) + 1) mod 256) (st w))
            (out w ++ [(to_radio, pdu (data_header cfg (pkt_cnt (st w)) sv ++ payload))])
            (forwarded w)).
Proof.
  intros Hsv Hb. unfold app_rx, _app_rx, send_pkt_radio. unfold_M. simpl.
  rewrite Hsv. unfold data_header in Hb. simpl in Hb |- *. rewrite Hb.
  destruct (debug_stderr cfg); reflexivity.
Qed.

(** An application payload, with the sink known, is sent as one DATA PDU
    whose header holds the packet counter, the distance to the sink as hop
    count and that distance plus [R] as TTL; the counter then increments
    modulo 256. *)
Theorem app_rx_sends_data cfg meta payload sv e w :
  sinkTable (st w) !! SINK_ADDR cfg = Some sv ->
  forallb is_byte (data_header cfg (pkt_cnt (st w)) sv ++ payload) = true ->
  app_rx cfg (PmtPair meta (PmtU8 payload)) e w =
  (Ok tt, mkWorld (set_pkt_cnt ((pkt_cnt (st w) + 1) mod 256) (st w))
            (out w ++ [(to_radio, pdu (data_header cfg (pkt_cnt (st w)) sv ++ payload))])
            (forwarded w)).
Proof. apply app_rx_send. Qed.

Lemma app_rx_sends_data_witness :
  exists sv, sinkTable (st w_sink) !! 0 = Some sv /\
  app_rx (cfg_B true) (pdu [170]) (env_at 5) w_sink =
  (Ok tt, mkWorld (set_pkt_cnt ((0 + 1) mod 256) (st w_sink))
            (out w_sink ++ [(to_radio, pdu (data_header (cfg_B true) 0 sv ++ [170]))])
            (forwarded w_sink)).
Proof.
  eexists. split; [vm_compute; reflexivity|].
  apply (app_rx_sends_data (cfg_B true) (PmtDict []) [170]); vm_compute; reflexivity.
Defined.

(** Same statement as the final-hop delivery of a DATA packet. *)
Lemma radio_rx_final_hop cfg meta sndr src sn hc ttl payload e w :
  crc_ok (to_python_dict meta) = true -> sndr <> addr cfg -> src <> addr cfg ->
  forallb is_byte ([DATA_PROTO; sndr; src; sn; hc; addr cfg; ttl] ++ payload) = true ->
  radio_rx cfg (PmtPair meta (PmtU8 ([DATA_PROTO; sndr; src; sn; hc; addr cfg; ttl] ++ payload))) e w =
  (Ok tt, mkWorld (st w)
            (out w ++ [(to_radio, pdu [NOTI_PROTO; addr cfg; src; sn]);
                       (to_app, PmtPair (PmtDict (to_python_dict meta)) (PmtU8 payload))])
            (forwarded w)).
Proof.
  intros Hcrc Hs Hr Hb.
  simpl in Hb. rewrite !andb_true_iff in Hb.
  destruct Hb as (Hsndr & Hsrc & Hsn & _ & Haddr & _ & Hpay).
  unfold radio_rx, _radio_rx, handle_data_packet, send_notification_radio, output_user_data.
  rewrite Hcrc. unfold_M. simpl.
  repeat (case_bool_decide; try congruence; try lia; simpl in * ); try (exfalso; set_solver).
  destruct (debug_stderr cfg); simpl;
    rewrite Haddr, Hsrc, Hsn; simpl; rewrite drop_0, Hpay; simpl;
    rewrite <- app_assoc; reflexivity.
Qed.

(** End to end: the DATA PDU a node sends for an application payload,
    received by the sink itself, makes the sink send a NOTI for it and
    deliver the payload to its application. *)
Theorem app_to_sink_delivery cfgA cfgS meta payload sv eA wA eS wS :
  sinkTable (st wA) !! SINK_ADDR cfgA = Some sv ->
  addr cfgS = SINK_ADDR cfgA -> addr cfgA <> SINK_ADDR cfgA ->
  forallb is_byte (data_header cfgA (pkt_cnt (st wA)) sv ++ payload) = true ->
  exists msg,
    out (snd (app_rx cfgA (PmtPair meta (PmtU8 payload)) eA wA)) = out wA ++ [(to_radio, msg)] /\
    radio_rx cfgS msg eS wS =
    (Ok tt, mkWorld (st wS)
              (out wS ++ [(to_radio, pdu [NOTI_PROTO; addr cfgS; addr cfgA; pkt_cnt (st wA)]);
                          (to_app, pdu payload)])
              (forwarded wS)).
Proof.
  intros Hsv HS HA Hb.
  eexists. rewrite (app_rx_send cfgA meta payload sv eA wA Hsv Hb). split; [reflexivity|].
  unfold pdu, data_header. rewrite <- HS.
  rewrite (radio_rx_final_hop cfgS (PmtDict []) (addr cfgA) (addr cfgA) (pkt_cnt (st wA))
             (min_dx_to_sink sv) (min_dx_to_sink sv + R cfgA) payload eS wS);
    [reflexivity | reflexivity | congruence | congruence |].
  unfold data_header in Hb. rewrite <- HS in Hb. exact Hb.
Qed.

Lemma app_to_sink_delivery_witness :
  exists msg,
    out (snd (app_rx (cfg_B true) (pdu [170]) (env_at 5) w_sink)) = out w_sink ++ [(to_radio, msg)] /\
    radio_rx cfg_S msg (env_at 6) (init_world 30) =
    (Ok tt, mkWorld (st (init_world 30))
              ([] ++ [(to_radio, pdu [NOTI_PROTO; 0; 1; 0]); (to_app, pdu [170])]) []).
Proof.
  apply (app_to_sink_delivery (cfg_B true) cfg_S (PmtDict []) [170]
           sv_0);
    [vm_compute; reflexivity | reflexivity | discriminate | vm_compute; reflexivity].
Defined.

(** ** Counters and debug-off nodes *)

(** Counters *)
Definition counters_ok (w : world) : Prop :=
  0 <= pkt_cnt (st w) < 256 /\ 0 <= sequence_number (st w) < 256.

Definition RelCnt (w w' : world) : Prop := counters_ok w -> counters_ok w'.
Lemma RelCnt_refl w : RelCnt w w. Proof. unfold RelCnt; tauto. Qed.
Lemma RelCnt_trans w1 w2 w3 : RelCnt w1 w2 -> RelCnt w2 w3 -> RelCnt w1 w3.
Proof. unfold RelCnt; tauto. Qed.
#[export] Hint Resolve RelCnt_refl RelCnt_trans : pres.

Ltac close_cnt :=
  unfold RelCnt, counters_ok; simpl; intros [? ?];
  repeat split; try lia; apply Z.mod_pos_bound; lia.

Lemma radio_rx_cnt cfg msg : pres RelCnt (radio_rx cfg msg).
Proof.
  intros e w. unfold radio_rx, _radio_rx, handle_sink_packet, minium_addr_in_sink_neighbor_table,
    handle_data_packet, send_notification_radio, output_user_data, handle_receive_notification.
  exec_M; close_cnt.
Qed.

Lemma app_rx_cnt cfg msg : pres RelCnt (app_rx cfg msg).
Proof. intros e w. unfold app_rx, _app_rx, send_pkt_radio. exec_M; close_cnt. Qed.

Lemma data_forward_cnt cfg k : pres RelCnt (data_forward cfg k).
Proof. intros e w. unfold data_forward. exec_M; close_cnt. Qed.
Lemma sink_forward_cnt cfg k : pres RelCnt (sink_forward cfg k).
Proof. intros e w. unfold sink_forward, send_sink_pkt. exec_M; close_cnt. Qed.
Lemma sink_beacon_cnt cfg : pres RelCnt (sink_beacon cfg).
Proof. intros e w. unfold sink_beacon, send_sink_pkt. exec_M; close_cnt. Qed.
#[export] Hint Resolve data_forward_cnt sink_forward_cnt sink_beacon_cnt : pres.

Lemma ctrl_rx_cnt cfg : pres RelCnt (ctrl_rx cfg).
Proof.
  unfold ctrl_rx, check_sink_neighbor_table, check_sink_table, check_data_packet_table.
  pres_steps; intros e w; exec_M; close_cnt.
Qed.

(** From the initial state, the packet counter and the sink sequence
    number stay in [0, 256) along any sequence of events. *)
Theorem run_counters_in_range cfg bi evs :
  0 <= pkt_cnt (st (run cfg (init_world bi) evs)) < 256 /\
  0 <= sequence_number (st (run cfg (init_world bi) evs)) < 256.
Proof.
  change (counters_ok (run cfg (init_world bi) evs)).
  assert (H0 : counters_ok (init_world bi)) by (unfold counters_ok; simpl; lia).
  revert H0. generalize (init_world bi). induction evs as [|ev evs IH]; intros w Hw; [done|].
  apply IH. destruct ev as [e msg|e msg|e]; simpl.
  - apply (radio_rx_cnt cfg msg e w Hw).
  - apply (app_rx_cnt cfg msg e w Hw).
  - apply (ctrl_rx_cnt cfg e w Hw).
Qed.

(** Debug-off nodes *)
Definition tables_empty (w : world) : Prop :=
  sinkNeighborTable (st w) = ∅ /\ sinkTable (st w) = ∅ /\ dataPacketTable (st w) = ∅.

Definition RelEmpty (w w' : world) : Prop := tables_empty w -> tables_empty w'.
Lemma RelEmpty_refl w : RelEmpty w w. Proof. unfold RelEmpty; tauto. Qed.
Lemma RelEmpty_trans w1 w2 w3 : RelEmpty w1 w2 -> RelEmpty w2 w3 -> RelEmpty w1 w3.
Proof. unfold RelEmpty; tauto. Qed.
#[export] Hint Resolve RelEmpty_refl RelEmpty_trans : pres.

Ltac close_empty :=
  unfold RelEmpty, tables_empty; simpl; intros (He1 & He2 & He3);
  rewrite ?He1, ?He2, ?He3 in *; rewrite ?lookup_empty in *; simplify_eq/=;
  rewrite ?delete_empty; auto; try congruence.

Lemma radio_rx_empty cfg msg : debug_stderr cfg = false -> pres RelEmpty (radio_rx cfg msg).
Proof.
  intros Hdbg e w. unfold radio_rx, _radio_rx, handle_sink_packet, minium_addr_in_sink_neighbor_table,
    handle_data_packet, send_notification_radio, output_user_data, handle_receive_notification.
  rewrite Hdbg. exec_M; close_empty.
Qed.

Lemma app_rx_empty cfg msg : pres RelEmpty (app_rx cfg msg).
Proof. intros e w. unfold app_rx, _app_rx, send_pkt_radio. exec_M; close_empty. Qed.

Lemma data_forward_empty cfg k : pres RelEmpty (data_forward cfg k).
Proof. intros e w. unfold data_forward. exec_M; close_empty. Qed.
Lemma sink_forward_empty cfg k : pres RelEmpty (sink_forward cfg k).
Proof. intros e w. unfold sink_forward, send_sink_pkt. exec_M; close_empty. Qed.
Lemma sink_beacon_empty cfg : pres RelEmpty (sink_beacon cfg).
Proof. intros e w. unfold sink_beacon, send_sink_pkt. exec_M; close_empty. Qed.
#[export] Hint Resolve data_forward_empty sink_forward_empty sink_beacon_empty : pres.

Lemma ctrl_rx_empty cfg : pres RelEmpty (ctrl_rx cfg).
Proof.
  unfold ctrl_rx, check_sink_neighbor_table, check_sink_table, check_data_packet_table.
  pres_steps; intros e w; exec_M; close_empty.
Qed.

Lemma run_debug_off_tables_empty cfg bi evs :
  debug_stderr cfg = false ->
  sinkNeighborTable (st (run cfg (init_world bi) evs)) = ∅ /\
  sinkTable (st (run cfg (init_world bi) evs)) = ∅ /\
  dataPacketTable (st (run cfg (init_world bi) evs)) = ∅.
Proof.
  intros Hdbg. change (tables_empty (run cfg (init_world bi) evs)).
  assert (H0 : tables_empty (init_world bi)) by (unfold tables_empty; simpl; auto).
  revert H0. generalize (init_world bi). induction evs as [|ev evs IH]; intros w Hw; [done|].
  apply IH. destruct ev as [e msg|e msg|e]; simpl.
  - apply (radio_rx_empty cfg msg Hdbg e w Hw).
  - apply (app_rx_empty cfg msg e w Hw).
  - apply (ctrl_rx_empty cfg e w Hw).
Qed.

(** With [debug_stderr] off, the three tables stay empty along any sequence
    of events from the initial state. *)
Theorem debug_off_tables_stay_empty cfg bi evs :
  debug_stderr cfg = false ->
  sinkNeighborTable (st (run cfg (init_world bi) evs)) = ∅ /\
  sinkTable (st (run cfg (init_world bi) evs)) = ∅ /\
  dataPacketTable (st (run cfg (init_world bi) evs)) = ∅.
Proof. apply run_debug_off_tables_empty. Qed.

Lemma debug_off_tables_stay_empty_witness :
  let evs := [FromRadio (env_at 0) (sink_msg 0); FromRadio (env_at 5) data_msg;
              FromApp (env_at 6) (pdu [170]); CtrlIn (env_at 40)] in
  sinkNeighborTable (st (run (cfg_B false) (init_world 30) evs)) = ∅ /\
  sinkTable (st (run (cfg_B false) (init_world 30) evs)) = ∅ /\
  dataPacketTable (st (run (cfg_B false) (init_world 30) evs)) = ∅.
Proof. apply debug_off_tables_stay_empty. reflexivity. Defined.

(** ** A rescheduled entry without bytes blocks the tick handler *)

Definition RelKeep (k : dkey) (v : DataPktVal) (w w' : world) : Prop :=
  dataPacketTable (st w) !! k = Some v -> dataPacketTable (st w') !! k = Some v.

Lemma RelKeep_refl k v w : RelKeep k v w w.
Proof. unfold RelKeep. tauto. Qed.
Lemma RelKeep_trans k v w1 w2 w3 : RelKeep k v w1 w2 -> RelKeep k v w2 w3 -> RelKeep k v w1 w3.
Proof. unfold RelKeep. tauto. Qed.
#[export] Hint Resolve RelKeep_refl RelKeep_trans : pres.

Lemma sink_beacon_keep cfg k v : pres (RelKeep k v) (sink_beacon cfg).
Proof. intros e w. unfold sink_beacon, send_sink_pkt. exec_M; unfold RelKeep; simpl; auto. Qed.
Lemma sink_forward_keep cfg k v k' : pres (RelKeep k v) (sink_forward cfg k').
Proof. intros e w. unfold sink_forward, send_sink_pkt. exec_M; unfold RelKeep; simpl; auto. Qed.
Lemma data_forward_keep cfg k v k' : k' <> k -> pres (RelKeep k v) (data_forward cfg k').
Proof.
  intros Hne e w. unfold data_forward. exec_M; unfold RelKeep; simpl; auto.
  all: intros Hk; rewrite ?lookup_insert_ne by done; try done.
Qed.

#[export] Hint Resolve sink_beacon_keep sink_forward_keep : pres.

Definition stuck (cfg : config) (t : Q) (v : DataPktVal) : Prop :=
  d_data v = None /\ d_scheduled v = true /\ duplicates v <= Ndupl cfg /\
  Qle_bool (d_forwarding_time v) t = true.

Lemma data_forward_stuck cfg k v e w :
  dataPacketTable (st w) !! k = Some v -> stuck cfg (now e) v ->
  data_forward cfg k e w = (Exc TypeError, w).
Proof.
  intros Hk (Hd & Hs & Hn & Ht). unfold data_forward. unfold_M. simpl.
  rewrite Hk, Hs, Ht. simpl. rewrite bool_decide_true by done. simpl.
  destruct (debug_stderr cfg); simpl; rewrite Hd; reflexivity.
Qed.

Lemma for_each_data_forward_stuck cfg k v ks e w :
  k ∈ ks -> dataPacketTable (st w) !! k = Some v -> stuck cfg (now e) v ->
  fst (for_each ks (data_forward cfg) e w) <> Ok tt /\
  dataPacketTable (st (snd (for_each ks (data_forward cfg) e w))) !! k = Some v.
Proof.
  revert w. induction ks as [|k' ks IH]; intros w Hin Hk Hs; [set_solver|].
  cbn [for_each]. cbv [mbind M_bind].
  destruct (decide (k' = k)) as [->|Hne].
  - rewrite (data_forward_stuck cfg k v e w Hk Hs). simpl. split; [discriminate|done].
  - pose proof (data_forward_keep cfg k v k' Hne e w Hk) as Hkeep.
    destruct (data_forward cfg k' e w) as [[[]|x] w'] eqn:E; simpl in *.
    + apply IH; [set_solver|done|done].
    + split; [discriminate|done].
Qed.

(** A due, scheduled data-table entry with no stored bytes makes every
    tick raise before the purge, so that entry is never removed. *)
Theorem ctrl_rx_stuck_entry cfg e w k v :
  dataPacketTable (st w) !! k = Some v -> d_data v = None -> d_scheduled v = true ->
  duplicates v <= Ndupl cfg -> Qle_bool (d_forwarding_time v) (now e) = true ->
  fst (ctrl_rx cfg e w) <> Ok tt /\
  dataPacketTable (st (snd (ctrl_rx cfg e w))) !! k = Some v.
Proof.
  intros Hk Hd Hs Hn Ht.
  assert (Hst : stuck cfg (now e) v) by (repeat split; done).
  assert (Hpre : pres (RelKeep k v)
            (if bool_decide (addr cfg = SINK_ADDR cfg) then sink_beacon cfg
             else n ← get_node; for_each (map_to_list (sinkTable n)).*1 (sink_forward cfg))).
  { case_bool_decide; pres_steps. }
  unfold ctrl_rx. revert Hpre.
  generalize (if bool_decide (addr cfg = SINK_ADDR cfg) then sink_beacon cfg
             else n ← get_node; for_each (map_to_list (sinkTable n)).*1 (sink_forward cfg)).
  intros pre Hpre. specialize (Hpre e w Hk).
  cbv [mbind M_bind].
  destruct (pre e w) as [[[]|x] w1] eqn:E1; simpl in *; [|split; [discriminate|done]].
  cbv [get_node].
  destruct (for_each_data_forward_stuck cfg k v (map_to_list (dataPacketTable (st w1))).*1 e w1)
    as [Hr Hw]; [|done|done|].
  { apply list_elem_of_fmap. exists (k, v). split; [done|]. by apply elem_of_map_to_list. }
  destruct (for_each _ (data_forward cfg) e w1) as [[[]|x] w2]; simpl in *; [congruence|].
  split; [discriminate|done].
Qed.

Definition w_stuck : world :=
  run (cfg_B true) (init_world 30)
    [FromRadio (env_at 0) (sink_msg 0); FromRadio (env_at 5) data_msg;
     CtrlIn (env_at 40); FromRadio (env_at 41) data_msg].

Lemma ctrl_rx_stuck_entry_witness :
  exists v, dataPacketTable (st w_stuck) !! key_207 = Some v /\ d_data v = None /\
  fst (ctrl_rx (cfg_B true) (env_at 42) w_stuck) <> Ok tt /\
  dataPacketTable (st (snd (ctrl_rx (cfg_B true) (env_at 42) w_stuck))) !! key_207 = Some v.
Proof.
  eexists. split; [vm_compute; reflexivity|]. split; [reflexivity|].
  apply (ctrl_rx_stuck_entry (cfg_B true) (env_at 42) w_stuck key_207);
    [vm_compute; reflexivity | reflexivity | reflexivity | vm_compute; discriminate | vm_compute; reflexivity].
Defined.

(** ** The loop bodies of the tick handler *)

(** A due, scheduled data-table entry whose stored bytes are all unsigned
    bytes is sent once on the radio port, logged as forwarded, and replaced
    by an entry without bytes, unscheduled, with the same last-heard time and
    duplicate count. *)
Theorem data_forward_sends cfg k v bytes e w :
  dataPacketTable (st w) !! k = Some v -> d_data v = Some bytes ->
  forallb is_byte bytes = true -> d_scheduled v = true ->
  duplicates v <= Ndupl cfg -> Qle_bool (d_forwarding_time v) (now e) = true ->
  data_forward cfg k e w =
  (Ok tt, mkWorld (set_dataPacketTable
     (<[k := mkDataPktVal None (d_last_time_heard v) 0 false (duplicates v)]>
        (dataPacketTable (st w))) (st w))
     (out w ++ [(to_radio, pdu bytes)]) (forwarded w ++ [k])).
Proof.
  intros Hk Hd Hb Hs Hn Ht. unfold data_forward. unfold_M. simpl.
  rewrite Hk. simpl. rewrite Hs, Ht, bool_decide_true by done. simpl.
  destruct (debug_stderr cfg); simpl; rewrite Hd; simpl; rewrite Hb; simpl; reflexivity.
Qed.

Lemma data_forward_sends_witness :
  exists v b, dataPacketTable (st w_data) !! key_207 = Some v /\ d_data v = Some b /\
  data_forward (cfg_B true) key_207 (env_at 40) w_data =
  (Ok tt, mkWorld (set_dataPacketTable
     (<[key_207 := mkDataPktVal None (d_last_time_heard v) 0 false (duplicates v)]>
        (dataPacketTable (st w_data))) (st w_data))
     (out w_data ++ [(to_radio, pdu b)]) (forwarded w_data ++ [key_207])).
Proof.
  do 2 eexists. split; [vm_compute; reflexivity|]. split; [vm_compute; reflexivity|].
  apply (data_forward_sends (cfg_B true) key_207);
    [vm_compute; reflexivity | reflexivity | vm_compute; reflexivity | vm_compute; reflexivity
    | vm_compute; discriminate | vm_compute; reflexivity].
Defined.

(** On a non-sink node, a due, scheduled sink entry is relayed as a SINK
    packet carrying the node's address, the sink, the highest sequence number
    and the node's distance; only the transmission time is recorded, the sink
    table itself is left as it was. *)
Theorem sink_forward_relays cfg k v e w :
  sinkTable (st w) !! k = Some v -> s_scheduled v = true ->
  Qle_bool (s_forwarding_time v) (now e) = true ->
  forallb is_byte [SINK_PROTO; addr cfg; k; highest_rcvd_seq_num v; min_dx_to_sink v] = true ->
  sink_forward cfg k e w =
  (Ok tt, mkWorld (set_sink_pkt_xmit_time (now e) (st w))
     (out w ++ [(to_radio, pdu [SINK_PROTO; addr cfg; k; highest_rcvd_seq_num v; min_dx_to_sink v])])
     (forwarded w)).
Proof.
  intros Hk Hs Ht Hb. unfold sink_forward, send_sink_pkt. unfold_M. simpl.
  rewrite Hk. simpl. rewrite Hs, Ht. simpl. simpl in Hb. rewrite Hb. reflexivity.
Qed.

Lemma sink_forward_relays_witness :
  exists v, sinkTable (st w_data) !! 0 = Some v /\
  sink_forward (cfg_B true) 0 (env_at 6) w_data =
  (Ok tt, mkWorld (set_sink_pkt_xmit_time 6 (st w_data))
     (out w_data ++ [(to_radio, pdu [SINK_PROTO; 1; 0; highest_rcvd_seq_num v; min_dx_to_sink v])])
     (forwarded w_data)).
Proof.
  eexists. split; [vm_compute; reflexivity|].
  apply (sink_forward_relays (cfg_B true) 0);
    [vm_compute; reflexivity | reflexivity | vm_compute; reflexivity | vm_compute; reflexivity].
Defined.

(** ** C2 *)

(** C2 (sink-neighbor update).  From the state after [__init__], along any
    sequence of messages, a valid SINK packet (not from the node itself)
    whose key [(sender, src)] is in the sink-neighbor table returns normally
    and overwrites that entry with
    [(seq, hc, now, 0.8 * old_interval + 0.2 * (now - last_heard))].  With
    [debug_stderr] on this is the update of [handle_sink_packet]; with it
    off the sink-neighbor table of a node stays empty, so the key is never
    present. *)
Theorem C2_sink_neighbor_update cfg bi evs meta sndr src sn hc e v :
  crc_ok (to_python_dict meta) = true -> sndr <> addr cfg -> src <> addr cfg ->
  sinkNeighborTable (st (run cfg (init_world bi) evs)) !! (sndr, src) = Some v ->
  let r := radio_rx cfg (PmtPair meta (PmtU8 [SINK_PROTO; sndr; src; sn; hc])) e
             (run cfg (init_world bi) evs) in
  fst r = Ok tt /\
  sinkNeighborTable (st (snd r)) !! (sndr, src) =
  Some (mkSinkNeighborVal sn hc (now e)
          ((4 # 5) * sn_broadcast_interval v + (1 # 5) * (now e - sn_last_time_heard v))%Q).
Proof.
  intros Hcrc Hs Hr Hv.
  destruct (debug_stderr cfg) eqn:Hdbg.
  - apply sink_neighbor_update_debug_on; done.
  - destruct (run_debug_off_tables_empty cfg bi evs Hdbg) as [He _].
    rewrite He, lookup_empty in Hv. discriminate.
Qed.

(** Node B (debug on) after sink 0's first beacon holds the neighbor entry
    (0, 0); the next beacon of sink 0, at t = 10, updates it. *)
Lemma C2_witness :
  exists v,
  sinkNeighborTable (st (run (cfg_B true) (init_world 30) [FromRadio (env_at 0) (sink_msg 0)]))
    !! (0, 0) = Some v /\
  fst (radio_rx (cfg_B true) (sink_msg 1) (env_at 10)
         (run (cfg_B true) (init_world 30) [FromRadio (env_at 0) (sink_msg 0)])) = Ok tt /\
  sinkNeighborTable (st (snd (radio_rx (cfg_B true) (sink_msg 1) (env_at 10)
         (run (cfg_B true) (init_world 30) [FromRadio (env_at 0) (sink_msg 0)])))) !! (0, 0) =
  Some (mkSinkNeighborVal 1 0 10
          ((4 # 5) * sn_broadcast_interval v + (1 # 5) * (10 - sn_last_time_heard v))%Q).
Proof.
  eexists. split; [vm_compute; reflexivity|].
  apply (C2_sink_neighbor_update (cfg_B true) 30 [FromRadio (env_at 0) (sink_msg 0)]
           (PmtDict []) 0 0 1 0 (env_at 10));
    [reflexivity | discriminate | discriminate | vm_compute; reflexivity].
Defined.
